(** * generate.py: control resolution and decoding dispatch

    A shallow embedding of the command-line driver [generate.py]: option
    defaults, resolution of the [--control] argument into a control tensor,
    the final length check, and the choice between beam search and
    greedy/temperature sampling.

    The script is straight-line module-level code.  It is modelled as a
    function from the parsed options and the outside world (file system,
    stored data, random draw) to either the decode call the script issues or
    the failure that stops it.  Floating-point data is kept behind an
    interface with two instances: exact rational arithmetic, and IEEE-754
    binary64 (numpy's [float64]) on the kernel's primitive floats. *)

From Stdlib Require Import List Bool Ascii String ZArith QArith Qabs Lia.
From Stdlib Require Import Rbase Rfunctions Rbasic_fun Lra.
From Stdlib Require PrimFloat SpecFloat FloatOps FloatAxioms.
From Stdlib Require DecimalString DecimalNat.
Import ListNotations.

Local Open Scope string_scope.
Local Open Scope Z_scope.

(** ** Failures

    Every way the script stops before decoding: a failed [assert], or an
    exception raised by a builtin or a library call. *)

Inductive failure : Type :=
| NotAFile (path : string)       (* assert os.path.isfile(...) *)
| PreprocessError (path : string)(* preprocess.preprocess_midi raises *)
| NoFileIn (dir : string)        (* assert len(files) > 0 *)
| LoadError (path : string)      (* torch.load raises, or its value is not a pair *)
| RecoverError                   (* ControlSeq.recover_compressed_array raises *)
| UnpackError                    (* ValueError: control.split(';') is not 2 items *)
| FloatError (item : string)     (* ValueError: float(item) *)
| HistogramSize                  (* assert pitch_histogram.size == 12 *)
| HistogramNegative              (* assert np.all(pitch_histogram >= 0) *)
| IntError (item : string)       (* ValueError: int(note_density) *)
| DensityOutOfRange              (* assert note_density in range(...) *)
| NegativeDimension              (* RuntimeError: tensor with a negative size *)
| NoLength                       (* assert max_len > 0 *)
| SessionError (path : string).  (* loading or building the model raises *)

Inductive result (A : Type) : Type :=
| Ok (a : A)
| Err (e : failure).

Arguments Ok {A} a.
Arguments Err {A} e.

Definition bind {A B : Type} (r : result A) (k : A -> result B) : result B :=
  match r with
  | Ok a => k a
  | Err e => Err e
  end.

Definition assert (b : bool) (e : failure) : result unit :=
  if b then Ok tt else Err e.

Definition lift {A : Type} (o : option A) (e : failure) : result A :=
  match o with
  | Some a => Ok a
  | None => Err e
  end.

Declare Scope result_scope.
Delimit Scope result_scope with result.
Notation "x <- r ;; k" := (bind r (fun x => k))
  (at level 61, r at next level, right associativity) : result_scope.
Notation "' p <- r ;; k" := (bind r (fun p => k))
  (at level 61, p pattern, r at next level, right associativity) : result_scope.
Notation "r ;;; k" := (bind r (fun _ => k))
  (at level 61, right associativity) : result_scope.
Local Open Scope result_scope.

Definition is_ok {A : Type} (r : result A) : bool :=
  match r with Ok _ => true | Err _ => false end.

(** [mapM f xs]: [list(map(f, xs))] where [f] may raise; the first failure,
    left to right, is the one reported. *)
Fixpoint mapM {A B : Type} (f : A -> result B) (xs : list A) : result (list B) :=
  match xs with
  | [] => Ok []
  | x :: xs' => y <- f x ;; ys <- mapM f xs' ;; Ok (y :: ys)
  end.

(** ** Strings *)

(** [str.split(sep)] for a one-character separator: never empty, and the
    empty string splits into one empty item. *)
Fixpoint split (sep : ascii) (s : string) : list string :=
  match s with
  | EmptyString => [EmptyString]
  | String c rest =>
      if Ascii.eqb c sep then EmptyString :: split sep rest
      else match split sep rest with
           | [] => [String c EmptyString]
           | w :: ws => String c w :: ws
           end
  end.

(** [len] used as a predicate, as in [filter(len, items)]. *)
Definition nonempty (s : string) : bool :=
  match s with EmptyString => false | String _ _ => true end.

(** A character of a string is a code point below 256; arguments with
    characters beyond that range are outside the model.

    The white space [float] and [int] skip at both ends: the space, the
    controls 9 to 13, and the two white-space characters above 127, U+0085
    and U+00A0.  (The separators 28 to 31 are not skipped.) *)
Definition is_space (c : ascii) : bool :=
  let n := nat_of_ascii c in
  (Nat.eqb n 32 || (Nat.leb 9 n && Nat.leb n 13)
   || Nat.eqb n 133 || Nat.eqb n 160)%bool.

Fixpoint lstrip (cs : list ascii) : list ascii :=
  match cs with
  | c :: cs' => if is_space c then lstrip cs' else cs
  | [] => []
  end.

Definition strip (cs : list ascii) : list ascii :=
  rev (lstrip (rev (lstrip cs))).

Definition digit_of (c : ascii) : option Z :=
  let n := nat_of_ascii c in
  if (Nat.leb 48 n && Nat.leb n 57)%bool then Some (Z.of_nat (n - 48)) else None.

(** The longest prefix of decimal digits, in which one underscore may stand
    between two digits: how many digits there are, their value, and what
    follows. *)
Fixpoint take_digits (cs : list ascii) (count : nat) (acc : Z)
  : nat * Z * list ascii :=
  match cs with
  | c :: cs' =>
      match digit_of c with
      | Some d => take_digits cs' (S count) (10 * acc + d)
      | None =>
          match count, cs' with
          | S _, c' :: cs'' =>
              if Ascii.eqb c "_" then
                match digit_of c' with
                | Some d => take_digits cs'' (S count) (10 * acc + d)
                | None => (count, acc, cs)
                end
              else (count, acc, cs)
          | _, _ => (count, acc, cs)
          end
      end
  | [] => (count, acc, [])
  end.

(** An optional sign: [true] for a minus. *)
Definition take_sign (cs : list ascii) : bool * list ascii :=
  match cs with
  | "-"%char :: cs' => (true, cs')
  | "+"%char :: cs' => (false, cs')
  | _ => (false, cs)
  end.

Definition lower (c : ascii) : ascii :=
  let n := nat_of_ascii c in
  if (Nat.leb 65 n && Nat.leb n 90)%bool then ascii_of_nat (n + 32) else c.

(** [int(s)]: white space stripped, an optional sign, at least one digit,
    single underscores between digits, nothing else. *)
Definition int_of_string (s : string) : option Z :=
  let (neg, cs) := take_sign (strip (list_ascii_of_string s)) in
  match take_digits cs 0 0 with
  | (S _, v, []) => Some (if neg then - v else v)
  | _ => None
  end.

(** What [float(s)] reads, before any rounding: a decimal number
    [(-1)^neg * mant * 10^exp10], an infinity, or a NaN. *)
Inductive float_literal : Type :=
| Decimal (neg : bool) (mant : Z) (exp10 : Z)
| Infinity (neg : bool)
| NaN.

Definition take_exponent (cs : list ascii) : option Z :=
  match cs with
  | [] => Some 0
  | c :: cs' =>
      if Ascii.eqb (lower c) "e" then
        let (neg, ds) := take_sign cs' in
        match take_digits ds 0 0 with
        | (S _, v, []) => Some (if neg then - v else v)
        | _ => None
        end
      else None
  end.

Definition float_literal_of_string (s : string) : option float_literal :=
  let (neg, cs) := take_sign (strip (list_ascii_of_string s)) in
  let word := string_of_list_ascii (map lower cs) in
  if (String.eqb word "inf" || String.eqb word "infinity")%bool then Some (Infinity neg)
  else if String.eqb word "nan" then Some NaN
  else
    let '(ni, vi, rest) := take_digits cs 0 0 in
    let '(nf, vf, rest') :=
      match rest with
      | "."%char :: fs => take_digits fs 0 vi
      | _ => (O, vi, rest)
      end in
    match (ni + nf)%nat with
    | O => None
    | S _ =>
        match take_exponent rest' with
        | Some e => Some (Decimal neg vf (e - Z.of_nat nf))
        | None => None
        end
    end.

(** ** Numbers

    What the script does with floating-point values: read one from a string,
    build the constants [1.0] and [12], add, divide, compare with zero, and
    narrow to [float32] for the tensor. *)

Class Number : Type := {
  num : Type;
  of_literal : float_literal -> option num;
  of_Z : Z -> num;
  add : num -> num -> num;
  div : num -> num -> num;
  geb : num -> num -> bool;      (* x >= y *)
  eqb : num -> num -> bool;      (* x == y *)
  to_float32 : num -> num;       (* dtype=torch.float32 *)
}.

(** Exact arithmetic: the rationals.  There is no infinity or NaN; the
    literals that denote them are not values of this instance. *)
Definition Q_of_literal (l : float_literal) : option Q :=
  match l with
  | Decimal neg m e =>
      let q := if 0 <=? e then inject_Z (m * 10 ^ e)
               else Qmake m (Z.to_pos (10 ^ (- e))) in
      Some (if neg then Qopp q else q)
  | Infinity _ | NaN => None
  end.

#[export] Instance Exact : Number | 0 := {|
  num := Q;
  of_literal := Q_of_literal;
  of_Z := inject_Z;
  add := Qplus;
  div := Qdiv;
  geb := fun x y => Qle_bool y x;
  eqb := Qeq_bool;
  to_float32 := fun x => x;
|}.

(** IEEE-754 binary64, rounding to nearest even.  A decimal literal is rounded
    once, from its exact value. *)
Definition binary64_of_literal (l : float_literal) : PrimFloat.float :=
  match l with
  | Decimal neg m e =>
      match m with
      | Zpos p =>
          FloatOps.SF2Prim
            (if 0 <=? e
             then SpecFloat.binary_round FloatOps.prec FloatOps.emax neg
                    (p * Z.to_pos (10 ^ e)) 0
             else SpecFloat.SFdiv FloatOps.prec FloatOps.emax
                    (SpecFloat.S754_finite neg p 0)
                    (SpecFloat.S754_finite false (Z.to_pos (10 ^ (- e))) 0))
      | _ => if neg then PrimFloat.neg_zero else PrimFloat.zero
      end
  | Infinity neg => if neg then PrimFloat.neg_infinity else PrimFloat.infinity
  | NaN => PrimFloat.nan
  end.

Definition binary64_of_Z (z : Z) : PrimFloat.float :=
  FloatOps.SF2Prim (SpecFloat.binary_normalize FloatOps.prec FloatOps.emax z 0 false).

(** Narrowing to binary32 (24-bit significand, exponents up to 128) and back;
    every binary32 value is a binary64 value. *)
Definition binary64_to_float32 (x : PrimFloat.float) : PrimFloat.float :=
  match FloatOps.Prim2SF x with
  | SpecFloat.S754_finite s m e =>
      FloatOps.SF2Prim (SpecFloat.binary_round 24 128 s m e)
  | _ => x
  end.

#[export] Instance Binary64 : Number | 9 := {|
  num := PrimFloat.float;
  of_literal := fun l => Some (binary64_of_literal l);
  of_Z := binary64_of_Z;
  add := PrimFloat.add;
  div := PrimFloat.div;
  geb := fun x y => PrimFloat.leb y x;
  eqb := PrimFloat.eqb;
  to_float32 := binary64_to_float32;
|}.

(** ** Data *)

(** A value that the script may overwrite with the string ['DISABLED']. *)
Inductive setting (A : Type) : Type :=
| Value (a : A)
| DISABLED.

Arguments Value {A} a.
Arguments DISABLED {A}.

Section Script.

Context {N : Number}.

Definition zero : num := of_Z 0.

(** [bool(x)] for a number: anything but zero. *)
Definition truthy (x : num) : bool := negb (eqb x zero).

(** numpy's pairwise summation of a contiguous [float64] array: fewer than 8
    elements are added in turn; up to 128 elements go through 8 accumulators,
    block of 8 by block of 8, the accumulators are added pairwise, and a last
    incomplete block is added in turn; a longer array is split in two. *)
Definition sum8 (r0 r1 r2 r3 r4 r5 r6 r7 : num) : num :=
  add (add (add r0 r1) (add r2 r3)) (add (add r4 r5) (add r6 r7)).

Fixpoint sum_blocks (r0 r1 r2 r3 r4 r5 r6 r7 : num) (rest : list num) : num :=
  match rest with
  | a0 :: a1 :: a2 :: a3 :: a4 :: a5 :: a6 :: a7 :: rest' =>
      sum_blocks (add r0 a0) (add r1 a1) (add r2 a2) (add r3 a3)
                 (add r4 a4) (add r5 a5) (add r6 a6) (add r7 a7) rest'
  | _ => fold_left add rest (sum8 r0 r1 r2 r3 r4 r5 r6 r7)
  end.

Fixpoint pairwise_sum (fuel : nat) (xs : list num) : num :=
  let n := List.length xs in
  if Nat.ltb n 8 then fold_left add xs zero
  else if Nat.leb n 128 then
    match xs with
    | r0 :: r1 :: r2 :: r3 :: r4 :: r5 :: r6 :: r7 :: rest =>
        sum_blocks r0 r1 r2 r3 r4 r5 r6 r7 rest
    | _ => zero
    end
  else
    match fuel with
    | O => zero
    | S fuel' =>
        let n2 := (n / 2 - (n / 2) mod 8)%nat in
        add (pairwise_sum fuel' (firstn n2 xs)) (pairwise_sum fuel' (skipn n2 xs))
    end.

(** [a.sum()]: the reduction starts from the identity of the addition and
    adds the pairwise sum of the array to it. *)
Definition total (xs : list num) : num :=
  add zero (pairwise_sum (List.length xs) xs).

(** [np.ones(12) / 12] *)
Definition uniform : list num := repeat (div (of_Z 1) (of_Z 12)) 12.

(** [sequence.Control]: a pitch histogram and a note-density bin index. *)
Record Control : Type := {
  pitch_histogram : list num;
  note_density : Z;
}.

(** A tensor of shape [steps, batch, dim]. *)
Definition tensor : Type := list (list (list num)).

(** The values [optparse] hands to the script. *)
Record Options : Type := {
  control : option string;
  batch_size : Z;
  sess_path : string;
  output_dir : string;
  max_len : Z;
  greedy_ratio : num;
  beam_size : Z;
  temperature : num;
  init_zero : bool;
  input_midi_file : option string;
  stats_file : option string;
}.

(** [getopt()] with no argument on the command line. *)
Definition default_options : Options := {|
  control := None;
  batch_size := 8;
  sess_path := "save/train.sess";
  output_dir := "output/";
  max_len := 0;
  greedy_ratio := of_Z 1;
  beam_size := 0;
  temperature := of_Z 1;
  init_zero := false;
  input_midi_file := None;
  stats_file := None;
|}.

(** What the script reads from outside itself: the file system, the stored
    data, one random draw, and the modules of the repository it imports
    ([utils], [sequence], [preprocess], [model], [quantize]), none of which is
    part of [generate.py].  A [None] stands for the call raising. *)
Record World : Type := {
  (* os.path, os *)
  isfile : string -> bool;
  isdir : string -> bool;
  listdir : string -> list string;
  (* utils.find_files_by_extensions(root), as a list *)
  find_files_by_extensions : string -> list string;
  (* the draw behind np.random.choice *)
  random_draw : nat;
  (* _, compressed_controls = torch.load(path) *)
  Compressed : Type;
  load_data : string -> option Compressed;
  (* sequence.ControlSeq, sequence.Control *)
  recover_compressed_array : Compressed -> option (list (list num));
  note_density_bins : list num;
  to_array : Control -> list num;
  (* user_events of preprocess.preprocess_midi(path) *)
  preprocess_midi : string -> option (list Z);
  (* torch.load(sess_path), PerformanceRNN, Quantizer: the model's init_dim *)
  load_model : string -> option string -> option nat;
}.

(** [np.random.choice(files)]: the element at a uniformly drawn index. *)
Definition random_choice (w : World) (files : list string) : option string :=
  nth_error files (random_draw w mod List.length files)%nat.

(** The text printed after [Controls:]. *)
Inductive description : Type :=
| NONE
| FromFile (path : string)   (* 'control sequence from "<path>"' *)
| Inline (c : Control).      (* repr(control) *)

(** The variables the resolution block leaves behind. *)
Record Resolved : Type := {
  controls : option tensor;
  resolved_max_len : Z;
  control_text : description;
}.

Inductive init_state : Type :=
| Zeros (batch : Z) (dim : nat)   (* torch.zeros(batch_size, model.init_dim) *)
| Randn (batch : Z) (dim : nat).  (* torch.randn(batch_size, model.init_dim) *)

(** The decode call the script ends up making, with the values it passes. *)
Inductive decode_call : Type :=
| beam_search (init : init_state) (max_len : Z) (beam_size : setting Z)
    (controls : option tensor) (temperature : num)
| generate (init : init_state) (max_len : Z) (controls : option tensor)
    (user_events : option (list Z)) (greedy : setting num) (temperature : num).

(** The settings block the script prints. *)
Record Settings : Type := {
  log_session : string;
  log_batch_size : Z;
  log_max_length : Z;
  log_greedy_ratio : setting num;
  log_beam_size : setting Z;
  log_output_dir : string;
  log_controls : description;
  log_temperature : num;
  log_init_zero : bool;
}.

Record Run : Type := {
  printed : Settings;
  call : decode_call;
}.

(** ** The script *)

(** [float(s)] *)
Definition float (s : string) : result num :=
  match float_literal_of_string s with
  | Some l => lift (of_literal l) (FloatError s)
  | None => Err (FloatError s)
  end.

(** [t.repeat(1, batch_size, 1)] on rows of shape [steps, 1, dim]. *)
Definition repeat_batch (batch_size : Z) (rows : list (list num)) : result tensor :=
  assert (0 <=? batch_size) NegativeDimension ;;;
  Ok (map (fun v => repeat v (Z.to_nat batch_size)) rows).

(** [torch.tensor(a, dtype=torch.float32)], row by row. *)
Definition float32_rows (rows : list (list num)) : list (list num) :=
  map (map to_float32) rows.

(** Line 145: [list(filter(len, pitch_histogram.split(',')))]. *)
Definition histogram_items (s : string) : list string :=
  filter nonempty (split "," s).

(** Lines 145-153: the histogram half of an inline control. *)
Definition parse_pitch_histogram (s : string) : result (list num) :=
  let items := histogram_items s in
  if Nat.eqb (List.length items) 0 then Ok uniform
  else
    xs <- mapM float items ;;
    assert (Nat.eqb (List.length xs) 12) HistogramSize ;;;
    assert (forallb (fun x => geb x zero) xs) HistogramNegative ;;;
    Ok (if truthy (total xs) then map (fun x => div x (total xs)) xs else uniform).

(** Lines 154-155: the density half of an inline control. *)
Definition parse_note_density (w : World) (s : string) : result Z :=
  d <- lift (int_of_string s) (IntError s) ;;
  assert ((0 <=? d) && (d <? Z.of_nat (List.length (note_density_bins w)))) DensityOutOfRange ;;;
  Ok d.

(** Lines 144-159: an argument that names no file or directory. *)
Definition resolve_inline (w : World) (opt : Options) (arg : string) : result Resolved :=
  match split ";" arg with
  | [h; d] =>
      hist <- parse_pitch_histogram h ;;
      dens <- parse_note_density w d ;;
      let c := {| pitch_histogram := hist; note_density := dens |} in
      t <- repeat_batch (batch_size opt) (float32_rows [to_array w c]) ;;
      Ok {| controls := Some t;
            resolved_max_len := max_len opt;
            control_text := Inline c |}
  | _ => Err UnpackError
  end.

(** Lines 131-134: a directory is replaced by one of the files found in it. *)
Definition select_file (w : World) (arg : string) : result string :=
  if isdir w arg then
    let files := find_files_by_extensions w arg in
    assert (Nat.ltb 0 (List.length files)) (NoFileIn arg) ;;;
    lift (random_choice w files) (NoFileIn arg)
  else Ok arg.

(** Lines 131-141: an argument that names a file or a directory. *)
Definition resolve_path (w : World) (opt : Options) (arg : string) : result Resolved :=
  path <- select_file w arg ;;
  compressed <- lift (load_data w path) (LoadError path) ;;
  rows <- lift (recover_compressed_array w compressed) RecoverError ;;
  let max_len := if max_len opt =? 0 then Z.of_nat (List.length rows) else max_len opt in
  t <- repeat_batch (batch_size opt) (float32_rows rows) ;;
  Ok {| controls := Some t;
        resolved_max_len := max_len;
        control_text := FromFile path |}.

(** Lines 129-163. *)
Definition resolve_control (w : World) (opt : Options) : result Resolved :=
  match control opt with
  | Some arg =>
      if (isfile w arg || isdir w arg)%bool then resolve_path w opt arg
      else resolve_inline w opt arg
  | None =>
      Ok {| controls := None;
            resolved_max_len := max_len opt;
            control_text := NONE |}
  end.

(** Lines 96-103. *)
Definition read_user_events (w : World) (opt : Options) : result (option (list Z)) :=
  match input_midi_file opt with
  | Some f =>
      assert (isfile w f) (NotAFile f) ;;;
      ev <- lift (preprocess_midi w f) (PreprocessError f) ;;
      Ok (Some ev)
  | None => Ok None
  end.

(** Line 117. *)
Definition use_beam_search (opt : Options) : bool := 0 <? beam_size opt.

(** Lines 202-205. *)
Definition make_init (opt : Options) (init_dim : nat) : result init_state :=
  assert (0 <=? batch_size opt) NegativeDimension ;;;
  Ok (if init_zero opt then Zeros (batch_size opt) init_dim
      else Randn (batch_size opt) init_dim).

(** The script from [getopt()] to the decode call. *)
Definition run (w : World) (opt : Options) : result Run :=
  user_events <- read_user_events w opt ;;
  let greedy_ratio' := if use_beam_search opt then DISABLED else Value (greedy_ratio opt) in
  let beam_size' := if use_beam_search opt then Value (beam_size opt) else DISABLED in
  assert (isfile w (sess_path opt)) (NotAFile (sess_path opt)) ;;;
  r <- resolve_control w opt ;;
  assert (0 <? resolved_max_len r) NoLength ;;;
  let printed :=
    {| log_session := sess_path opt;
       log_batch_size := batch_size opt;
       log_max_length := resolved_max_len r;
       log_greedy_ratio := greedy_ratio';
       log_beam_size := beam_size';
       log_output_dir := output_dir opt;
       log_controls := control_text r;
       log_temperature := temperature opt;
       log_init_zero := init_zero opt |} in
  init_dim <- lift (load_model w (sess_path opt) (stats_file opt))
                   (SessionError (sess_path opt)) ;;
  init <- make_init opt init_dim ;;
  Ok {| printed := printed;
        call := if use_beam_search opt
                then beam_search init (resolved_max_len r) beam_size'
                       (controls r) (temperature opt)
                else generate init (resolved_max_len r) (controls r)
                       user_events greedy_ratio' (temperature opt) |}.

End Script.

(** ** Sample worlds

    Concrete surroundings on which the script can be evaluated.  The stored
    control array is kept as the rows it decompresses to; the serialisation of
    a [Control] is a one-hot density vector followed by the histogram. *)

Definition one_hot {N : Number} (n : nat) (i : Z) : list num :=
  map (fun k => if Z.of_nat k =? i then of_Z 1 else of_Z 0) (seq 0 n).

Definition sample_rows {N : Number} (steps : nat) : list (list num) :=
  repeat (one_hot 12 2 ++ uniform)%list steps.

(** A session file, and a directory [data] that holds two control files. *)
Definition sample_world {N : Number} : World := {|
  isfile := fun p =>
    (String.eqb p "save/train.sess" || String.eqb p "data/a.data"
     || String.eqb p "data/b.data")%bool;
  isdir := fun p => String.eqb p "data";
  listdir := fun p => if String.eqb p "data" then ["a.data"; "b.data"] else [];
  find_files_by_extensions := fun p =>
    if String.eqb p "data" then ["data/a.data"; "data/b.data"] else [];
  random_draw := 1;
  Compressed := list (list num);
  load_data := fun p =>
    if String.eqb p "data/a.data" then Some (sample_rows 3)
    else if String.eqb p "data/b.data" then Some (sample_rows 5)
    else None;
  recover_compressed_array := fun c => Some c;
  note_density_bins := map (fun k => of_Z (3 * Z.of_nat k + 1)) (seq 0 12);
  to_array := fun c => (one_hot 12 (note_density c) ++ pitch_histogram c)%list;
  preprocess_midi := fun _ => None;
  load_model := fun _ _ => Some 32%nat;
|}.

(** A directory [ctrl] whose one file, [notes.data], is not a stored control
    array: [torch.load] raises on it. *)
Definition unreadable_world {N : Number} : World := {|
  isfile := fun p =>
    (String.eqb p "save/train.sess" || String.eqb p "ctrl/notes.data")%bool;
  isdir := fun p => String.eqb p "ctrl";
  listdir := fun p => if String.eqb p "ctrl" then ["notes.data"] else [];
  find_files_by_extensions := fun p =>
    if String.eqb p "ctrl" then ["ctrl/notes.data"] else [];
  random_draw := 0;
  Compressed := list (list num);
  load_data := fun _ => None;
  recover_compressed_array := fun c => Some c;
  note_density_bins := map (fun k => of_Z (3 * Z.of_nat k + 1)) (seq 0 12);
  to_array := fun c => (one_hot 12 (note_density c) ++ pitch_histogram c)%list;
  preprocess_midi := fun _ => None;
  load_model := fun _ _ => Some 32%nat;
|}.

(** The default options with a control argument and a maximum length. *)
Definition with_control {N : Number} (arg : string) (len : Z) : Options := {|
  control := Some arg;
  batch_size := batch_size default_options;
  sess_path := sess_path default_options;
  output_dir := output_dir default_options;
  max_len := len;
  greedy_ratio := greedy_ratio default_options;
  beam_size := beam_size default_options;
  temperature := temperature default_options;
  init_zero := init_zero default_options;
  input_midi_file := None;
  stats_file := None;
|}.

(** The default options with a beam size and a maximum length. *)
Definition with_beam {N : Number} (beam : Z) (len : Z) : Options := {|
  control := None;
  batch_size := batch_size default_options;
  sess_path := sess_path default_options;
  output_dir := output_dir default_options;
  max_len := len;
  greedy_ratio := greedy_ratio default_options;
  beam_size := beam;
  temperature := temperature default_options;
  init_zero := init_zero default_options;
  input_midi_file := None;
  stats_file := None;
|}.

Definition is_beam_search {N : Number} (c : decode_call) : bool :=
  match c with
  | beam_search _ _ _ _ _ => true
  | generate _ _ _ _ _ _ => false
  end.

(** The length argument of the decode call. *)
Definition call_max_len {N : Number} (c : decode_call) : Z :=
  match c with
  | beam_search _ l _ _ _ => l
  | generate _ l _ _ _ _ => l
  end.

(** The settings block and the decode call, from what the earlier stages left. *)
Definition finish {N : Number} (opt : Options) (user_events : option (list Z)) (r : Resolved) (init_dim : nat) : Run :=
  let greedy_ratio' := if use_beam_search opt then DISABLED else Value (greedy_ratio opt) in
  let beam_size' := if use_beam_search opt then Value (beam_size opt) else DISABLED in
  let init := if init_zero opt then Zeros (batch_size opt) init_dim
              else Randn (batch_size opt) init_dim in
  {| printed :=
       {| log_session := sess_path opt;
          log_batch_size := batch_size opt;
          log_max_length := resolved_max_len r;
          log_greedy_ratio := greedy_ratio';
          log_beam_size := beam_size';
          log_output_dir := output_dir opt;
          log_controls := control_text r;
          log_temperature := temperature opt;
          log_init_zero := init_zero opt |};
     call := if use_beam_search opt
             then beam_search init (resolved_max_len r) beam_size'
                    (controls r) (temperature opt)
             else generate init (resolved_max_len r) (controls r)
                    user_events greedy_ratio' (temperature opt) |}.

(** What [resolve_control] leaves when no control is given. *)
Definition unconditioned {N : Number} (len : Z) : Resolved :=
  {| controls := None; resolved_max_len := len; control_text := NONE |}.



(** ** Saving the outputs

    Lines 221-238: the decoded array is transposed, the output directory is
    created, and one MIDI file is written per batch element. *)

(** A two-dimensional integer array with its shape, as numpy keeps it (the
    shape is what tells a [[0, n]] array from a [[0, m]] one). *)
Record ndarray : Type := {
  shape0 : nat;
  shape1 : nat;
  rows : list (list Z);
}.

(** The rows agree with the shape. *)
Definition well_shaped (a : ndarray) : Prop :=
  List.length (rows a) = shape0 a /\
  Forall (fun r => List.length r = shape1 a) (rows a).

(** [a.T] *)
Definition transpose (a : ndarray) : ndarray := {|
  shape0 := shape1 a;
  shape1 := shape0 a;
  rows := map (fun j => map (fun r => nth j r 0) (rows a)) (seq 0 (shape1 a));
|}.

(** [s.zfill(width)] for a string of digits. *)
Definition zfill (width : nat) (s : string) : string :=
  string_of_list_ascii (repeat "0"%char (width - String.length s)) ++ s.

(** [f'{i:03d}'] for an index [i >= 0]: its decimal digits, padded with zeros
    on the left to three characters, and longer from 1000 on. *)
Definition format_03d (i : nat) : string :=
  zfill 3 (DecimalString.NilEmpty.string_of_uint (Nat.to_uint i)).

(** Line 235: [f'output-{i:03d}.mid'] *)
Definition output_name (i : nat) : string :=
  "output-" ++ format_03d i ++ ".mid".

Definition starts_with_sep (s : string) : bool :=
  match s with
  | String c _ => Ascii.eqb c "/"
  | EmptyString => false
  end.

Fixpoint ends_with_sep (s : string) : bool :=
  match s with
  | EmptyString => false
  | String c EmptyString => Ascii.eqb c "/"
  | String _ rest => ends_with_sep rest
  end.

(** [os.path.join(a, b)] on a POSIX system. *)
Definition path_join (a b : string) : string :=
  if starts_with_sep b then b
  else if (negb (nonempty a) || ends_with_sep a)%bool then a ++ b
  else a ++ "/" ++ b.

(** Line 236. *)
Definition output_path (output_dir : string) (i : nat) : string :=
  path_join output_dir (output_name i).

(** What the saving stage calls: the decoder behind [model.generate] and
    [model.beam_search] (its result as a numpy array of event indices, shape
    [[steps, batch]]), [os.makedirs(dir, exist_ok=True)] ([false]: it
    raises), and [utils.event_indeces_to_midi_file(events, path)], which
    returns the number of notes. *)
Record Backend {N : Number} : Type := {
  decode : decode_call -> option ndarray;
  makedirs : string -> bool;
  event_indeces_to_midi_file : list Z -> string -> option nat;
}.

(** One completed iteration of the loop: the file written, and the note count
    printed with its path. *)
Record Saved : Type := {
  saved_path : string;
  saved_events : list Z;
  saved_notes : nat;
}.

(** Lines 230-238, from index [i] on: the iterations completed, and the path
    at which [event_indeces_to_midi_file] raised, if it did. *)
Fixpoint save_from {N : Number} (b : Backend) (output_dir : string) (i : nat)
    (outputs : list (list Z)) : list Saved * option string :=
  match outputs with
  | [] => ([], None)
  | output :: rest =>
      let path := output_path output_dir i in
      match event_indeces_to_midi_file b output path with
      | Some n_notes =>
          let (done, stopped) := save_from b output_dir (S i) rest in
          ({| saved_path := path; saved_events := output; saved_notes := n_notes |}
             :: done, stopped)
      | None => ([], Some path)
      end
  end.

(** What the script has done to the file system, in order: the calls that
    have returned. *)
Inductive effect : Type :=
| MakeDirs (dir : string)
| WriteMidi (path : string) (events : list Z).

(** How the script ends. *)
Inductive outcome : Type :=
| Stopped (e : failure)          (* before decoding *)
| DecodeRaised                   (* model.generate or model.beam_search raises *)
| MakeDirsRaised (dir : string)  (* os.makedirs raises *)
| WriteRaised (path : string)    (* event_indeces_to_midi_file raises *)
| Finished.

Definition write_of (s : Saved) : effect := WriteMidi (saved_path s) (saved_events s).

(** The whole script: the completed file-system calls and the outcome. *)
Definition script {N : Number} (w : World) (b : Backend) (opt : Options)
  : list effect * outcome :=
  match run w opt with
  | Err e => ([], Stopped e)
  | Ok rn =>
      match decode b (call rn) with
      | None => ([], DecodeRaised)
      | Some outputs =>
          let outputs := transpose outputs in
          if makedirs b (output_dir opt) then
            let (done, stopped) := save_from b (output_dir opt) 0 (rows outputs) in
            (MakeDirs (output_dir opt) :: map write_of done,
             match stopped with
             | Some path => WriteRaised path
             | None => Finished
             end)
          else ([], MakeDirsRaised (output_dir opt))
      end
  end.

(** Column [j] of an array: [[a[t][j] for t in range(steps)]]. *)
Definition column (a : ndarray) (j : nat) : list Z :=
  map (fun r => nth j r 0) (rows a).

(** [s.count(c)] for a character. *)
Fixpoint count_char (c : ascii) (s : string) : nat :=
  match s with
  | EmptyString => O
  | String c' rest => (if Ascii.eqb c' c then 1 else 0) + count_char c rest
  end.

(** The same options without a seed MIDI file. *)
Definition without_midi {N : Number} (opt : Options) : Options := {|
  control := control opt;
  batch_size := batch_size opt;
  sess_path := sess_path opt;
  output_dir := output_dir opt;
  max_len := max_len opt;
  greedy_ratio := greedy_ratio opt;
  beam_size := beam_size opt;
  temperature := temperature opt;
  init_zero := init_zero opt;
  input_midi_file := None;
  stats_file := stats_file opt;
|}.

(** A backend that decodes to a fixed array and counts every event as a
    note; [failing] is a path at which writing raises. *)
Definition sample_backend {N : Number} (outputs : ndarray) (failing : string) : Backend := {|
  decode := fun _ => Some outputs;
  makedirs := fun _ => true;
  event_indeces_to_midi_file := fun events path =>
    if String.eqb path failing then None else Some (List.length events);
|}.

(** Two steps for a batch of three. *)
Definition sample_outputs : ndarray :=
  {| shape0 := 2; shape1 := 3; rows := [[1; 2; 3]; [4; 5; 6]] |}.

(** The sample world with a seed MIDI file, [seed.mid], that
    [preprocess_midi] reads as three events. *)
Definition seeded_world {N : Number} : World := {|
  isfile := fun p =>
    (String.eqb p "seed.mid" || String.eqb p "save/train.sess"
     || String.eqb p "data/a.data" || String.eqb p "data/b.data")%bool;
  isdir := fun p => String.eqb p "data";
  listdir := fun p => if String.eqb p "data" then ["a.data"; "b.data"] else [];
  find_files_by_extensions := fun p =>
    if String.eqb p "data" then ["data/a.data"; "data/b.data"] else [];
  random_draw := 1;
  Compressed := list (list num);
  load_data := fun p =>
    if String.eqb p "data/a.data" then Some (sample_rows 3)
    else if String.eqb p "data/b.data" then Some (sample_rows 5)
    else None;
  recover_compressed_array := fun c => Some c;
  note_density_bins := map (fun k => of_Z (3 * Z.of_nat k + 1)) (seq 0 12);
  to_array := fun c => (one_hot 12 (note_density c) ++ pitch_histogram c)%list;
  preprocess_midi := fun p => if String.eqb p "seed.mid" then Some [60; 64; 67] else None;
  load_model := fun _ _ => Some 32%nat;
|}.

(** The default options with a seed MIDI file, a beam size and a maximum
    length. *)
Definition with_seed {N : Number} (file : string) (beam : Z) (len : Z) : Options := {|
  control := None;
  batch_size := batch_size default_options;
  sess_path := sess_path default_options;
  output_dir := output_dir default_options;
  max_len := len;
  greedy_ratio := greedy_ratio default_options;
  beam_size := beam;
  temperature := temperature default_options;
  init_zero := init_zero default_options;
  input_midi_file := Some file;
  stats_file := None;
|}.

(** ** The real value of a binary64 number

    What is needed to state how far the histogram the script computes is from
    the exact quotient: the real number a finite binary64 value stands for,
    and the additions of a sum laid out as a tree. *)



















(** ** Monad and list facts *)

Lemma bind_ok {A B : Type} (r : result A) (k : A -> result B) (b : B) :
  bind r k = Ok b <-> exists a, r = Ok a /\ k a = Ok b.
Proof.
  destruct r as [a|e]; simpl; split.
  - intros H; exists a; auto.
  - intros (a' & Ha & Hk); inversion Ha; subst; exact Hk.
  - discriminate.
  - intros (a' & Ha & _); discriminate.
Qed.

(** One step of a successful sequence: the first stage returned, and the rest
    went on from its value. *)
Tactic Notation "unbind" hyp(H) "as" simple_intropattern(x) simple_intropattern(Hx) :=
  apply bind_ok in H; destruct H as (x & Hx & H).

Section Facts.

Context {N : Number}.

Lemma assert_ok (b : bool) (e : failure) : assert b e = Ok tt <-> b = true.
Proof. destruct b; simpl; split; auto; discriminate. Qed.

Lemma lift_ok {A : Type} (o : option A) (e : failure) (a : A) :
  lift o e = Ok a <-> o = Some a.
Proof. destruct o; simpl; split; intros H; inversion H; auto. Qed.

Lemma is_ok_true {A : Type} (r : result A) :
  is_ok r = true <-> exists a, r = Ok a.
Proof.
  destruct r; simpl; split; eauto; try discriminate.
  intros (a & H); discriminate.
Qed.

Lemma mapM_ok {A B : Type} (f : A -> result B) (xs : list A) (ys : list B) :
  mapM f xs = Ok ys <-> Forall2 (fun x y => f x = Ok y) xs ys.
Proof.
  revert ys; induction xs as [|x xs IH]; intros ys; simpl.
  - split.
    + intros H; inversion H; constructor.
    + intros H; inversion H; reflexivity.
  - rewrite bind_ok. split.
    + intros (y & Hy & H). apply bind_ok in H. destruct H as (zs & Hzs & H).
      inversion H; subst. constructor; [exact Hy | apply IH; exact Hzs].
    + intros H; inversion H as [|? y ? zs Hy Hzs]; subst.
      exists y; split; [exact Hy|]. apply bind_ok.
      exists zs; split; [apply IH; exact Hzs | reflexivity].
Qed.

Lemma mapM_length {A B : Type} (f : A -> result B) (xs : list A) (ys : list B) :
  mapM f xs = Ok ys -> List.length ys = List.length xs.
Proof.
  rewrite mapM_ok. induction 1; simpl; congruence.
Qed.

Lemma uniform_length : List.length uniform = 12%nat.
Proof. reflexivity. Qed.

Lemma uniform_entries (x : num) :
  In x uniform -> x = div (of_Z 1) (of_Z 12).
Proof. unfold uniform; intros H; apply repeat_spec in H; exact H. Qed.

Lemma repeat_batch_ok (b : Z) (rows : list (list num)) (t : tensor) :
  repeat_batch b rows = Ok t <->
  0 <= b /\ t = map (fun v => repeat v (Z.to_nat b)) rows.
Proof.
  unfold repeat_batch, assert. destruct (Z.leb_spec 0 b); simpl; split.
  - intros H'; inversion H'; auto.
  - intros (_ & ->); reflexivity.
  - discriminate.
  - intros (? & _); lia.
Qed.

End Facts.

(** ** The shape of a run *)

Section Structure.

Context {N : Number}.
Variables (w : World) (opt : Options).

Lemma run_ok (rn : Run) :
  run w opt = Ok rn <->
  exists user_events r init_dim,
    read_user_events w opt = Ok user_events /\
    isfile w (sess_path opt) = true /\
    resolve_control w opt = Ok r /\
    0 < resolved_max_len r /\
    load_model w (sess_path opt) (stats_file opt) = Some init_dim /\
    0 <= batch_size opt /\
    rn = finish opt user_events r init_dim.
Proof.
  unfold run, make_init, finish. split.
  - intros H.
    unbind H as ue Hue.
    unbind H as [] Hs.
    unbind H as r Hr.
    unbind H as [] Hl.
    unbind H as dim Hd.
    unbind H as init Hi.
    unbind Hi as [] Hb.
    apply assert_ok in Hs, Hl, Hb. apply lift_ok in Hd.
    exists ue, r, dim. repeat split; auto; try lia.
    inversion Hi; subst init. inversion H; reflexivity.
  - intros (ue & r & dim & Hue & Hs & Hr & Hl & Hd & Hb & ->).
    rewrite Hue, Hs; simpl. rewrite Hr; simpl.
    apply Z.ltb_lt in Hl; rewrite Hl; simpl. rewrite Hd; simpl.
    apply Z.leb_le in Hb; rewrite Hb; simpl. reflexivity.
Qed.

(** A run stops as soon as resolution leaves a length that is not positive. *)
Lemma run_no_length (r : Resolved) :
  resolve_control w opt = Ok r -> resolved_max_len r <= 0 ->
  exists e, run w opt = Err e.
Proof.
  intros Hr Hl. destruct (run w opt) as [rn|e] eqn:E; [|eauto].
  apply run_ok in E. destruct E as (? & r' & ? & _ & _ & Hr' & Hl' & _).
  rewrite Hr in Hr'; inversion Hr'; subst; lia.
Qed.

Lemma run_resolve_err (e : failure) :
  resolve_control w opt = Err e -> exists e', run w opt = Err e'.
Proof.
  intros Hr. destruct (run w opt) as [rn|e'] eqn:E; [|eauto].
  apply run_ok in E. destruct E as (? & r' & ? & _ & _ & Hr' & _).
  rewrite Hr in Hr'; discriminate.
Qed.

Lemma resolve_control_none :
  control opt = None ->
  resolve_control w opt =
    Ok {| controls := None; resolved_max_len := max_len opt; control_text := NONE |}.
Proof. unfold resolve_control; intros ->; reflexivity. Qed.

Lemma resolve_control_inline (arg : string) :
  control opt = Some arg -> isfile w arg = false -> isdir w arg = false ->
  resolve_control w opt = resolve_inline w opt arg.
Proof. unfold resolve_control; intros -> -> ->; reflexivity. Qed.

Lemma resolve_control_path (arg : string) :
  control opt = Some arg -> (isfile w arg || isdir w arg)%bool = true ->
  resolve_control w opt = resolve_path w opt arg.
Proof. unfold resolve_control; intros -> ->; reflexivity. Qed.

Lemma resolve_inline_ok (arg h d : string) (r : Resolved) :
  split ";" arg = [h; d] ->
  (resolve_inline w opt arg = Ok r <->
   exists hist dens,
     parse_pitch_histogram h = Ok hist /\
     parse_note_density w d = Ok dens /\
     0 <= batch_size opt /\
     r = let c := {| pitch_histogram := hist; note_density := dens |} in
         {| controls := Some [repeat (map to_float32 (to_array w c))
                                (Z.to_nat (batch_size opt))];
            resolved_max_len := max_len opt;
            control_text := Inline c |}).
Proof.
  intros Hs. unfold resolve_inline. rewrite Hs. split.
  - intros H.
    unbind H as hist Hh.
    unbind H as dens Hd.
    unbind H as t Ht.
    apply repeat_batch_ok in Ht. destruct Ht as (Hb & ->).
    exists hist, dens. repeat split; auto. inversion H; reflexivity.
  - intros (hist & dens & Hh & Hd & Hb & ->).
    rewrite Hh, Hd; simpl.
    unfold repeat_batch. apply Z.leb_le in Hb; rewrite Hb; reflexivity.
Qed.

Lemma parse_note_density_ok (d : string) (k : Z) :
  parse_note_density w d = Ok k <->
  int_of_string d = Some k /\ 0 <= k < Z.of_nat (List.length (note_density_bins w)).
Proof.
  unfold parse_note_density. destruct (int_of_string d) as [k'|]; simpl.
  - unfold assert.
    destruct (Z.leb_spec 0 k'), (Z.ltb_spec k' (Z.of_nat (List.length (note_density_bins w))));
      simpl; split; intros H'; try discriminate;
      try (inversion H'; subst; split; [reflexivity | lia]);
      try (destruct H' as (H' & ?); inversion H'; subst; auto; lia).
  - split; [discriminate | intros (H' & _); discriminate].
Qed.

End Structure.

Section PathStructure.

Context {N : Number}.
Variables (w : World) (opt : Options).

Lemma select_file_of_file (arg : string) :
  isdir w arg = false -> select_file w arg = Ok arg.
Proof. unfold select_file; intros ->; reflexivity. Qed.

Lemma random_choice_some (files : list string) :
  files <> [] -> exists f, random_choice w files = Some f /\ In f files.
Proof.
  intros Hne. unfold random_choice.
  destruct (nth_error files (random_draw w mod List.length files)%nat) as [f|] eqn:E.
  - exists f; split; [reflexivity | eapply nth_error_In; exact E].
  - apply nth_error_None in E. destruct files as [|x xs]; [congruence|].
    pose proof (Nat.mod_upper_bound (random_draw w) (List.length (x :: xs))) as Hb.
    simpl in Hb, E. lia.
Qed.

Lemma select_file_of_dir (arg : string) :
  isdir w arg = true ->
  select_file w arg =
    match find_files_by_extensions w arg with
    | [] => Err (NoFileIn arg)
    | files => lift (random_choice w files) (NoFileIn arg)
    end.
Proof.
  unfold select_file; intros ->.
  destruct (find_files_by_extensions w arg); reflexivity.
Qed.

Lemma resolve_path_ok (arg : string) (r : Resolved) :
  resolve_path w opt arg = Ok r <->
  exists path c rows,
    select_file w arg = Ok path /\
    load_data w path = Some c /\
    recover_compressed_array w c = Some rows /\
    0 <= batch_size opt /\
    r = {| controls := Some (map (fun v => repeat v (Z.to_nat (batch_size opt)))
                               (float32_rows rows));
           resolved_max_len := if max_len opt =? 0 then Z.of_nat (List.length rows)
                               else max_len opt;
           control_text := FromFile path |}.
Proof.
  unfold resolve_path. split.
  - intros H.
    unbind H as path Hp.
    unbind H as c Hc.
    unbind H as rows Hr.
    unbind H as t Ht.
    apply lift_ok in Hc, Hr. apply repeat_batch_ok in Ht. destruct Ht as (Hb & ->).
    exists path, c, rows. repeat split; auto. inversion H; reflexivity.
  - intros (path & c & rows & Hp & Hc & Hr & Hb & ->).
    rewrite Hp; simpl. rewrite Hc; simpl. rewrite Hr; simpl.
    unfold repeat_batch. apply Z.leb_le in Hb; rewrite Hb; reflexivity.
Qed.

(** Whatever the argument, a length other than zero survives resolution. *)
Lemma resolved_max_len_kept (r : Resolved) :
  resolve_control w opt = Ok r -> max_len opt <> 0 -> resolved_max_len r = max_len opt.
Proof.
  unfold resolve_control. intros H Hz.
  destruct (control opt) as [arg|].
  - destruct (isfile w arg || isdir w arg)%bool.
    + apply resolve_path_ok in H. destruct H as (? & ? & ? & _ & _ & _ & _ & ->).
      simpl. apply Z.eqb_neq in Hz; rewrite Hz; reflexivity.
    + destruct (split ";" arg) as [|h [|d [|? ?]]] eqn:Hs;
        try (unfold resolve_inline in H; rewrite Hs in H; discriminate).
      apply (resolve_inline_ok w opt arg h d r Hs) in H.
      destruct H as (? & ? & _ & _ & _ & ->). reflexivity.
  - inversion H; reflexivity.
Qed.

End PathStructure.

(** ** The histogram half *)

Section Histogram.

Context {N : Number}.

Lemma mapM_float_err (items : list string) (e : failure) :
  mapM float items = Err e -> exists x, In x items /\ e = FloatError x.
Proof.
  induction items as [|x items IH]; simpl; [discriminate|].
  destruct (float x) as [y|e'] eqn:Hx; simpl.
  - destruct (mapM float items) as [ys|e'']; simpl; [discriminate|].
    intros E; inversion E; subst.
    destruct (IH eq_refl) as (x' & Hin & ->). eauto.
  - intros E; inversion E; subst. exists x; split; [auto|].
    unfold float in Hx. destruct (float_literal_of_string x) as [lit|].
    + destruct (of_literal lit); simpl in Hx; [discriminate | congruence].
    + congruence.
Qed.

(** The histogram half is accepted in exactly two ways. *)
Lemma parse_pitch_histogram_ok (h : string) (hist : list num) :
  parse_pitch_histogram h = Ok hist <->
  (histogram_items h = [] /\ hist = uniform) \/
  (exists xs,
     mapM float (histogram_items h) = Ok xs /\
     List.length xs = 12%nat /\
     forallb (fun x => geb x zero) xs = true /\
     hist = if truthy (total xs) then map (fun x => div x (total xs)) xs else uniform).
Proof.
  unfold parse_pitch_histogram.
  destruct (histogram_items h) as [|i items] eqn:Hi; simpl Nat.eqb; cbv iota.
  - split.
    + intros H; inversion H; auto.
    + intros [(_ & ->)|(xs & Hm & Hl & _)]; [reflexivity|].
      simpl in Hm. inversion Hm; subst; discriminate.
  - split.
    + intros H. right.
      unbind H as xs Hm.
      unbind H as [] Hl.
      unbind H as [] Hg.
      apply assert_ok in Hl, Hg. apply Nat.eqb_eq in Hl.
      exists xs. repeat split; auto. inversion H; reflexivity.
    + intros [(E & _)|(xs & Hm & Hl & Hg & ->)]; [discriminate|].
      rewrite Hm; simpl. apply Nat.eqb_eq in Hl. rewrite Hl; simpl.
      rewrite Hg; reflexivity.
Qed.

(** It is rejected in exactly three ways. *)
Lemma parse_pitch_histogram_err (h : string) (e : failure) :
  parse_pitch_histogram h = Err e ->
  e = HistogramSize \/ e = HistogramNegative \/ exists x, e = FloatError x.
Proof.
  unfold parse_pitch_histogram.
  destruct (Nat.eqb _ 0); [discriminate|].
  destruct (mapM float (histogram_items h)) as [xs|e'] eqn:Hm; simpl.
  - unfold assert.
    destruct (Nat.eqb (List.length xs) 12); simpl; [|intros E; inversion E; auto].
    destruct (forallb _ xs); simpl; [discriminate|intros E; inversion E; auto].
  - intros E; inversion E; subst.
    destruct (mapM_float_err _ _ Hm) as (x & _ & ->). eauto.
Qed.


Lemma parse_pitch_histogram_items (h h' : string) :
  histogram_items h' = histogram_items h ->
  parse_pitch_histogram h' = parse_pitch_histogram h.
Proof. unfold parse_pitch_histogram; intros ->; reflexivity. Qed.

End Histogram.

Lemma split_not_nil (sep : ascii) (s : string) : split sep s <> [].
Proof.
  destruct s as [|c s]; simpl; [discriminate|].
  destruct (Ascii.eqb c sep); [discriminate|].
  destruct (split sep s); discriminate.
Qed.

(** [(a + sep + b).split(sep) == a.split(sep) + b.split(sep)] *)
Lemma split_app (sep : ascii) (a b : string) :
  split sep (a ++ String sep b) = (split sep a ++ split sep b)%list.
Proof.
  induction a as [|c a IH]; simpl.
  - rewrite Ascii.eqb_refl. reflexivity.
  - destruct (Ascii.eqb c sep).
    + rewrite IH. reflexivity.
    + rewrite IH. pose proof (split_not_nil sep a) as Hne.
      destruct (split sep a); [congruence | reflexivity].
Qed.

Lemma histogram_items_app (a b : string) :
  histogram_items (a ++ String "," b) = (histogram_items a ++ histogram_items b)%list.
Proof. unfold histogram_items. rewrite split_app, filter_app. reflexivity. Qed.

(** ** Decoding dispatch *)

(** C7. Every run that reaches decoding makes exactly one of the two decode
    calls: beam search if and only if [beam_size > 0], greedy/temperature
    sampling otherwise; the option of the strategy that is not used (the
    greedy ratio under beam search, the beam size under sampling) is the one
    replaced by [DISABLED], and the strategy in use receives its own option
    unchanged.  A run reaches decoding whenever the steps before it pass. *)
Theorem one_strategy_active {N : Number} (w : World) (opt : Options) :
  (forall rn, run w opt = Ok rn ->
     (is_beam_search (call rn) = true <-> 0 < beam_size opt) /\
     (is_beam_search (call rn) = false <-> beam_size opt <= 0) /\
     (0 < beam_size opt ->
        log_greedy_ratio (printed rn) = DISABLED /\
        log_beam_size (printed rn) = Value (beam_size opt) /\
        exists init len ctl temp,
          call rn = beam_search init len (Value (beam_size opt)) ctl temp) /\
     (beam_size opt <= 0 ->
        log_beam_size (printed rn) = DISABLED /\
        log_greedy_ratio (printed rn) = Value (greedy_ratio opt) /\
        exists init len ctl events temp,
          call rn = generate init len ctl events (Value (greedy_ratio opt)) temp)) /\
  (forall user_events r init_dim,
     read_user_events w opt = Ok user_events ->
     isfile w (sess_path opt) = true ->
     resolve_control w opt = Ok r ->
     0 < resolved_max_len r ->
     load_model w (sess_path opt) (stats_file opt) = Some init_dim ->
     0 <= batch_size opt ->
     exists rn, run w opt = Ok rn).
Proof.
  split.
  - intros rn H. apply run_ok in H.
    destruct H as (ue & r & dim & _ & _ & _ & _ & _ & _ & ->).
    unfold finish, use_beam_search. simpl.
    destruct (Z.ltb_spec 0 (beam_size opt)) as [Hb|Hb]; simpl.
    + split; [split; auto|]. split; [split; [discriminate | lia]|].
      split; [|lia]. intros _. split; [reflexivity|]. split; [reflexivity|].
      eauto 6.
    + split; [split; [discriminate | lia]|]. split; [split; auto|].
      split; [lia|]. intros _. split; [reflexivity|]. split; [reflexivity|].
      eauto 7.
  - intros ue r dim Hu Hs Hr Hl Hd Hb.
    exists (finish opt ue r dim). apply run_ok. exists ue, r, dim. auto 10.
Qed.

Lemma one_strategy_active_witness :
  run (N := Exact) sample_world (with_beam 3 10)
    = Ok (finish (with_beam 3 10) None (unconditioned 10) 32) /\
  (is_beam_search (call (finish (N := Exact) (with_beam 3 10) None (unconditioned 10) 32)) = true
   <-> 0 < 3) /\
  run (N := Exact) sample_world (with_beam 0 10)
    = Ok (finish (with_beam 0 10) None (unconditioned 10) 32) /\
  (is_beam_search (call (finish (N := Exact) (with_beam 0 10) None (unconditioned 10) 32)) = false
   <-> 0 <= 0).
Proof.
  split; [reflexivity|]. split.
  - exact (proj1 (proj1 (one_strategy_active (N := Exact) sample_world (with_beam 3 10))
                    _ eq_refl)).
  - split; [reflexivity|].
    exact (proj1 (proj2 (proj1 (one_strategy_active (N := Exact) sample_world (with_beam 0 10))
                           _ eq_refl))).
Defined.

(** ** The length check *)

Lemma run_stops_on_length {N : Number} (w : World) (opt : Options)
    (ue : option (list Z)) (r : Resolved) :
  read_user_events w opt = Ok ue -> isfile w (sess_path opt) = true ->
  resolve_control w opt = Ok r -> resolved_max_len r <= 0 ->
  run w opt = Err NoLength.
Proof.
  intros Hu Hs Hr Hl. unfold run. rewrite Hu, Hs; simpl. rewrite Hr; simpl.
  destruct (Z.ltb_spec 0 (resolved_max_len r)); [lia | reflexivity].
Qed.

(** C9. The length is taken from a control file only when the given maximum
    length is exactly 0: any other value, negative ones included, comes out of
    resolution unchanged.  Every run that gets past resolution has a positive
    length, which is the one handed to the decode call; a resolved length that
    is not positive stops the run (at the length assertion, when the earlier
    steps pass), and so does every negative [-l] value, with or without a
    control file. *)
Theorem length_guard {N : Number} (w : World) (opt : Options) :
  (forall r, resolve_control w opt = Ok r -> max_len opt <> 0 ->
             resolved_max_len r = max_len opt) /\
  (forall r, resolve_control w opt = Ok r -> resolved_max_len r <> max_len opt ->
             max_len opt = 0 /\
             exists arg, control opt = Some arg /\
                         (isfile w arg || isdir w arg)%bool = true) /\
  (forall rn, run w opt = Ok rn ->
              0 < log_max_length (printed rn) /\
              call_max_len (call rn) = log_max_length (printed rn)) /\
  (forall r, resolve_control w opt = Ok r -> resolved_max_len r <= 0 ->
             (exists e, run w opt = Err e) /\
             (forall ue, read_user_events w opt = Ok ue ->
                         isfile w (sess_path opt) = true ->
                         run w opt = Err NoLength)) /\
  (max_len opt < 0 -> exists e, run w opt = Err e).
Proof.
  split; [|split; [|split; [|split]]].
  - intros r Hr Hz. exact (resolved_max_len_kept w opt r Hr Hz).
  - intros r Hr Hneq.
    assert (Hz : max_len opt = 0).
    { destruct (Z.eq_dec (max_len opt) 0) as [Hz|Hz]; [exact Hz|].
      exfalso. apply Hneq. exact (resolved_max_len_kept w opt r Hr Hz). }
    split; [exact Hz|].
    destruct (control opt) as [arg|] eqn:Hc.
    + exists arg. split; [reflexivity|].
      destruct (isfile w arg || isdir w arg)%bool eqn:Hp; [reflexivity|].
      exfalso. apply Hneq.
      apply orb_false_iff in Hp. destruct Hp as (Hf & Hd).
      rewrite (resolve_control_inline w opt arg Hc Hf Hd) in Hr.
      destruct (split ";" arg) as [|h [|d [|? ?]]] eqn:Hs;
        try (unfold resolve_inline in Hr; rewrite Hs in Hr; discriminate).
      apply (resolve_inline_ok w opt arg h d r Hs) in Hr.
      destruct Hr as (? & ? & _ & _ & _ & ->). reflexivity.
    + exfalso. apply Hneq. rewrite (resolve_control_none w opt Hc) in Hr.
      inversion Hr; reflexivity.
  - intros rn Hrun. apply run_ok in Hrun.
    destruct Hrun as (? & r & ? & _ & _ & _ & Hl & _ & _ & ->).
    split; [exact Hl|].
    unfold finish; simpl. destruct (use_beam_search opt); reflexivity.
  - intros r Hr Hl. split.
    + exact (run_no_length w opt r Hr Hl).
    + intros ue Hu Hs. exact (run_stops_on_length w opt ue r Hu Hs Hr Hl).
  - intros Hneg. destruct (resolve_control w opt) as [r|e] eqn:Hr.
    + apply (run_no_length w opt r Hr).
      rewrite (resolved_max_len_kept w opt r Hr); lia.
    + exact (run_resolve_err w opt e Hr).
Qed.

Lemma length_guard_witness :
  max_len (with_control (N := Exact) "data/a.data" (-4)) < 0 /\
  resolve_control (N := Exact) sample_world (with_control "data/a.data" (-4))
    = Ok {| controls := Some (map (fun v => repeat v 8) (sample_rows 3));
            resolved_max_len := -4;
            control_text := FromFile "data/a.data" |} /\
  exists e, run (N := Exact) sample_world (with_control "data/a.data" (-4)) = Err e.
Proof.
  split; [reflexivity|]. split; [reflexivity|].
  apply (proj2 (proj2 (proj2 (proj2
           (length_guard (N := Exact) sample_world (with_control "data/a.data" (-4))))))).
  reflexivity.
Defined.

(** C3. With no maximum length given (the default, 0) and no control file to
    take one from -- the control argument is absent, or is an inline control
    string -- the run fails: resolution leaves the length at 0, and the length
    assertion stops the run once the earlier steps pass.  Resolution yields no
    tensor exactly when the control argument is absent; the tensor of an
    inline control has one step. *)
Theorem length_required {N : Number} (w : World) (opt : Options) :
  max_len opt = 0 ->
  (control opt = None \/
   exists arg, control opt = Some arg /\ isfile w arg = false /\ isdir w arg = false) ->
  (exists e, run w opt = Err e) /\
  (forall r, resolve_control w opt = Ok r ->
     resolved_max_len r = 0 /\
     (controls r = None <-> control opt = None) /\
     (forall t, controls r = Some t -> List.length t = 1%nat) /\
     (forall ue, read_user_events w opt = Ok ue ->
                 isfile w (sess_path opt) = true ->
                 run w opt = Err NoLength)).
Proof.
  intros Hz Hc.
  assert (Hres : forall r, resolve_control w opt = Ok r ->
            resolved_max_len r = 0 /\
            (controls r = None <-> control opt = None) /\
            (forall t, controls r = Some t -> List.length t = 1%nat)).
  { intros r Hr. destruct Hc as [Hc | (arg & Hc & Hf & Hd)].
    - rewrite (resolve_control_none w opt Hc) in Hr. inversion Hr; subst; simpl.
      repeat split; auto. discriminate.
    - rewrite (resolve_control_inline w opt arg Hc Hf Hd) in Hr.
      destruct (split ";" arg) as [|h [|d [|? ?]]] eqn:Hs;
        try (unfold resolve_inline in Hr; rewrite Hs in Hr; discriminate).
      apply (resolve_inline_ok w opt arg h d r Hs) in Hr.
      destruct Hr as (? & ? & _ & _ & _ & ->). simpl.
      repeat split; auto; try discriminate; try congruence.
      intros t Ht; inversion Ht; reflexivity. }
  split.
  - destruct (resolve_control w opt) as [r|e] eqn:Hr.
    + apply (run_no_length w opt r Hr). destruct (Hres r eq_refl) as (-> & _). lia.
    + exact (run_resolve_err w opt e Hr).
  - intros r Hr. destruct (Hres r Hr) as (H0 & Hn & Ht).
    repeat split; try apply Hn; auto.
    intros ue Hu Hs. apply (run_stops_on_length w opt ue r Hu Hs Hr). lia.
Qed.

Lemma length_required_witness :
  max_len (default_options (N := Exact)) = 0 /\
  control (default_options (N := Exact)) = None /\
  run (N := Exact) sample_world default_options = Err NoLength.
Proof.
  split; [reflexivity|]. split; [reflexivity|].
  destruct (length_required (N := Exact) sample_world default_options eq_refl
              (or_introl eq_refl)) as (_ & H).
  exact (proj2 (proj2 (proj2 (H _ eq_refl))) None eq_refl eq_refl).
Defined.

(** ** Control files *)

(** C6. When the control argument names an existing data file and no maximum
    length is requested ([max_len] is 0), the length resolution leaves is the
    number of rows (the first dimension) of the control array recovered from
    that file, the control tensor has that many steps, and a run that reaches
    decoding hands exactly this length to the decode call. *)
Theorem length_from_file {N : Number} (w : World) (opt : Options) (arg : string)
    (c : Compressed w) (rows : list (list num)) :
  control opt = Some arg -> isfile w arg = true -> isdir w arg = false ->
  max_len opt = 0 ->
  load_data w arg = Some c -> recover_compressed_array w c = Some rows ->
  0 <= batch_size opt ->
  (exists t,
     resolve_control w opt
       = Ok {| controls := Some t;
               resolved_max_len := Z.of_nat (List.length rows);
               control_text := FromFile arg |} /\
     List.length t = List.length rows) /\
  (forall rn, run w opt = Ok rn ->
     log_max_length (printed rn) = Z.of_nat (List.length rows) /\
     call_max_len (call rn) = Z.of_nat (List.length rows)).
Proof.
  intros Hc Hf Hd Hz Hl Hr Hb.
  assert (Hres : resolve_control w opt
            = Ok {| controls := Some (map (fun v => repeat v (Z.to_nat (batch_size opt)))
                                        (float32_rows rows));
                    resolved_max_len := Z.of_nat (List.length rows);
                    control_text := FromFile arg |}).
  { rewrite (resolve_control_path w opt arg Hc) by (rewrite Hf; reflexivity).
    apply resolve_path_ok. exists arg, c, rows.
    rewrite (select_file_of_file w arg Hd), Hz. auto. }
  split.
  - eexists; split; [exact Hres|].
    unfold float32_rows. rewrite !length_map. reflexivity.
  - intros rn Hrun. apply run_ok in Hrun.
    destruct Hrun as (? & r & ? & _ & _ & Hr' & _ & _ & _ & ->).
    rewrite Hres in Hr'. inversion Hr'; subst r.
    unfold finish; simpl. destruct (use_beam_search opt); auto.
Qed.

Lemma length_from_file_witness :
  (isfile (sample_world (N := Exact)) "data/a.data" = true /\
   isdir (sample_world (N := Exact)) "data/a.data" = false /\
   load_data (sample_world (N := Exact)) "data/a.data" = Some (sample_rows 3)) /\
  run (N := Exact) sample_world (with_control "data/a.data" 0)
    = Ok (finish (with_control "data/a.data" 0) None
            {| controls := Some (map (fun v => repeat v 8) (sample_rows 3));
               resolved_max_len := 3;
               control_text := FromFile "data/a.data" |} 32) /\
  call_max_len (call (finish (N := Exact) (with_control "data/a.data" 0) None
            {| controls := Some (map (fun v => repeat v 8) (sample_rows 3));
               resolved_max_len := 3;
               control_text := FromFile "data/a.data" |} 32)) = 3.
Proof.
  split; [repeat split|]. split; [reflexivity|].
  refine (proj2 (proj2 (length_from_file (N := Exact) sample_world
            (with_control "data/a.data" 0) "data/a.data" (sample_rows 3) (sample_rows 3)
            eq_refl eq_refl eq_refl eq_refl eq_refl eq_refl _) _ eq_refl)).
  discriminate.
Defined.

(** ** Inline controls *)

(** C5. For an inline control string whose density half reads as an integer:
    if the integer is not an index into the note-density bins (it is negative,
    or at least their number), resolution fails and so does the run -- at the
    density assertion whenever the histogram half was accepted; if it is an
    index, the density half is accepted and resolution does not fail at the
    density assertion. *)
Theorem density_in_range {N : Number} (w : World) (opt : Options)
    (arg h d : string) (k : Z) :
  control opt = Some arg -> isfile w arg = false -> isdir w arg = false ->
  split ";" arg = [h; d] -> int_of_string d = Some k ->
  (~ (0 <= k < Z.of_nat (List.length (note_density_bins w))) ->
     (exists e, resolve_control w opt = Err e) /\
     (exists e, run w opt = Err e) /\
     (forall hist, parse_pitch_histogram h = Ok hist ->
                   resolve_control w opt = Err DensityOutOfRange)) /\
  (0 <= k < Z.of_nat (List.length (note_density_bins w)) ->
     parse_note_density w d = Ok k /\
     resolve_control w opt <> Err DensityOutOfRange).
Proof.
  intros Hc Hf Hd Hs Hk.
  rewrite (resolve_control_inline w opt arg Hc Hf Hd).
  split.
  - intros Hout.
    assert (Hdens : parse_note_density w d = Err DensityOutOfRange).
    { unfold parse_note_density. rewrite Hk; simpl. unfold assert.
      destruct (Z.leb_spec 0 k), (Z.ltb_spec k (Z.of_nat (List.length (note_density_bins w))));
        simpl; try reflexivity. exfalso; apply Hout; lia. }
    assert (Hfail : exists e, resolve_inline w opt arg = Err e).
    { unfold resolve_inline. rewrite Hs.
      destruct (parse_pitch_histogram h) as [hist|e]; simpl; [|eauto].
      rewrite Hdens; simpl; eauto. }
    split; [exact Hfail|]. split.
    + destruct Hfail as (e & He). apply (run_resolve_err w opt e).
      rewrite (resolve_control_inline w opt arg Hc Hf Hd). exact He.
    + intros hist Hh. unfold resolve_inline. rewrite Hs, Hh; simpl.
      rewrite Hdens; reflexivity.
  - intros Hin.
    assert (Hdens : parse_note_density w d = Ok k).
    { apply parse_note_density_ok; auto. }
    split; [exact Hdens|].
    unfold resolve_inline. rewrite Hs.
    destruct (parse_pitch_histogram h) as [hist|e] eqn:Hh; simpl.
    + rewrite Hdens; simpl. unfold repeat_batch, assert.
      destruct (0 <=? batch_size opt); simpl; discriminate.
    + intros E; inversion E; subst e.
      destruct (parse_pitch_histogram_err h _ Hh) as [H'|[H'|(x & H')]]; discriminate H'.
Qed.

Lemma density_in_range_witness :
  (split ";" "2,0,1,1,0,1,0,1,1,0,0,1;12" = ["2,0,1,1,0,1,0,1,1,0,0,1"; "12"] /\
   int_of_string "12" = Some 12 /\
   List.length (note_density_bins (sample_world (N := Exact))) = 12%nat) /\
  resolve_control (N := Exact) sample_world
    (with_control "2,0,1,1,0,1,0,1,1,0,0,1;12" 100) = Err DensityOutOfRange.
Proof.
  split; [repeat split|].
  destruct (density_in_range (N := Exact) sample_world
              (with_control "2,0,1,1,0,1,0,1,1,0,0,1;12" 100)
              "2,0,1,1,0,1,0,1,1,0,0,1;12" "2,0,1,1,0,1,0,1,1,0,0,1" "12" 12
              eq_refl eq_refl eq_refl eq_refl eq_refl) as (Hout & _).
  refine (proj2 (proj2 (Hout _)) _ eq_refl).
  vm_compute. intros (_ & H); discriminate H.
Defined.

(** C8. An inline control string whose two halves are accepted resolves, for
    any batch size that is not negative, to a single [Control]; the control
    tensor holds that control's serialised vector (narrowed to [float32]) at
    every step and at every one of its [batch_size] batch positions, and
    nothing else.  The tensor built here has one step. *)
Theorem inline_control_broadcast {N : Number} (w : World) (opt : Options)
    (arg h d : string) (hist : list num) (dens : Z) :
  control opt = Some arg -> isfile w arg = false -> isdir w arg = false ->
  split ";" arg = [h; d] ->
  parse_pitch_histogram h = Ok hist -> parse_note_density w d = Ok dens ->
  let c := {| pitch_histogram := hist; note_density := dens |} in
  let vec := map to_float32 (to_array w c) in
  (0 <= batch_size opt ->
     resolve_control w opt
       = Ok {| controls := Some [repeat vec (Z.to_nat (batch_size opt))];
               resolved_max_len := max_len opt;
               control_text := Inline c |}) /\
  (forall r, resolve_control w opt = Ok r ->
     control_text r = Inline c /\
     exists t, controls r = Some t /\
       List.length t = 1%nat /\
       Forall (fun step =>
                 List.length step = Z.to_nat (batch_size opt) /\
                 Forall (fun v => v = vec) step) t).
Proof.
  intros Hc Hf Hd Hs Hh Hn c vec.
  rewrite (resolve_control_inline w opt arg Hc Hf Hd).
  split.
  - intros Hb. apply (resolve_inline_ok w opt arg h d _ Hs).
    exists hist, dens. auto.
  - intros r Hr. apply (resolve_inline_ok w opt arg h d r Hs) in Hr.
    destruct Hr as (hist' & dens' & Hh' & Hn' & Hb & ->).
    rewrite Hh in Hh'; inversion Hh'; subst hist'.
    rewrite Hn in Hn'; inversion Hn'; subst dens'.
    simpl. split; [reflexivity|].
    eexists; split; [reflexivity|]. split; [reflexivity|].
    constructor; [|constructor].
    split; [apply repeat_length|].
    apply Forall_forall. intros v Hv. apply repeat_spec in Hv. exact Hv.
Qed.

Lemma inline_control_broadcast_witness :
  (split ";" ";3" = [""; "3"] /\
   parse_pitch_histogram (N := Exact) "" = Ok uniform /\
   parse_note_density (N := Exact) sample_world "3" = Ok 3) /\
  resolve_control (N := Exact) sample_world (with_control ";3" 100)
    = Ok {| controls :=
              Some [repeat (one_hot 12 3 ++ uniform)%list 8];
            resolved_max_len := 100;
            control_text := Inline {| pitch_histogram := uniform; note_density := 3 |} |}.
Proof.
  split; [repeat split|].
  refine (proj1 (inline_control_broadcast (N := Exact) sample_world (with_control ";3" 100)
            ";3" "" "3" uniform 3 eq_refl eq_refl eq_refl eq_refl eq_refl eq_refl) _).
  discriminate.
Defined.

(** C4. An inline control string whose histogram half has no item left (it is
    empty, or holds commas only), or whose 12 histogram values add up to
    zero, resolves to the uniform histogram: 12 entries, each [1/12].  The
    histogram half is then accepted (in the second case provided no value is
    negative, which the script checks first), and every [Control] that
    resolution yields carries the uniform histogram. *)
Theorem uniform_histogram {N : Number} (w : World) (opt : Options) (arg h d : string) :
  control opt = Some arg -> isfile w arg = false -> isdir w arg = false ->
  split ";" arg = [h; d] ->
  (histogram_items h = [] \/
   exists xs, mapM float (histogram_items h) = Ok xs /\
              List.length xs = 12%nat /\ eqb (total xs) zero = true) ->
  ((forall xs, mapM float (histogram_items h) = Ok xs ->
               forallb (fun x => geb x zero) xs = true) ->
   parse_pitch_histogram h = Ok uniform) /\
  (forall r, resolve_control w opt = Ok r ->
     exists dens,
       control_text r = Inline {| pitch_histogram := uniform; note_density := dens |}) /\
  List.length uniform = 12%nat /\
  Forall (fun x => x = div (of_Z 1) (of_Z 12)) uniform.
Proof.
  intros Hc Hf Hd Hs Hcase.
  assert (Huni : forall hist, parse_pitch_histogram h = Ok hist -> hist = uniform).
  { intros hist Hh. apply parse_pitch_histogram_ok in Hh.
    destruct Hh as [(_ & ->)|(xs & Hm & Hl & _ & ->)]; [reflexivity|].
    destruct Hcase as [He|(xs' & Hm' & _ & Hz)].
    - rewrite He in Hm. simpl in Hm. inversion Hm; subst xs. discriminate Hl.
    - rewrite Hm in Hm'; inversion Hm'; subst xs'.
      unfold truthy. rewrite Hz. reflexivity. }
  split; [|split; [|split]].
  - intros Hge. apply parse_pitch_histogram_ok.
    destruct Hcase as [He|(xs & Hm & Hl & Hz)]; [left; auto|].
    right. exists xs. repeat split; auto.
    unfold truthy. rewrite Hz. reflexivity.
  - intros r Hr. rewrite (resolve_control_inline w opt arg Hc Hf Hd) in Hr.
    apply (resolve_inline_ok w opt arg h d r Hs) in Hr.
    destruct Hr as (hist & dens & Hh & _ & _ & ->).
    exists dens. simpl. rewrite (Huni hist Hh). reflexivity.
  - apply uniform_length.
  - apply Forall_forall. apply uniform_entries.
Qed.

Lemma uniform_histogram_witness :
  (split ";" "0,0,0,0,0,0,0,0,0,0,0,0;5" = ["0,0,0,0,0,0,0,0,0,0,0,0"; "5"] /\
   mapM (float (N := Exact)) (histogram_items "0,0,0,0,0,0,0,0,0,0,0,0")
     = Ok (repeat (inject_Z 0) 12)) /\
  parse_pitch_histogram (N := Exact) "0,0,0,0,0,0,0,0,0,0,0,0" = Ok (repeat (1 # 12)%Q 12).
Proof.
  split; [repeat split|].
  refine (proj1 (uniform_histogram (N := Exact) sample_world
            (with_control "0,0,0,0,0,0,0,0,0,0,0,0;5" 100)
            "0,0,0,0,0,0,0,0,0,0,0,0;5" "0,0,0,0,0,0,0,0,0,0,0,0" "5"
            eq_refl eq_refl eq_refl eq_refl _) _).
  - right. exists (repeat (inject_Z 0) 12). repeat split.
  - intros xs Hm. vm_compute in Hm. inversion Hm. reflexivity.
Defined.

(** C10. Empty items of the histogram half are dropped before anything is
    checked.  The result depends on the non-empty items only: a comma in
    front, a comma at the end, or a doubled comma changes nothing.  When the
    non-empty items are numbers, the half is accepted if there are exactly 12
    of them and none is negative, and it fails the size check if their number
    is neither 12 nor 0, however many empty items stand between them. *)
Theorem empty_items_ignored {N : Number} (h : string) (xs : list num) :
  mapM float (histogram_items h) = Ok xs ->
  (List.length (histogram_items h) = 12%nat ->
   forallb (fun x => geb x zero) xs = true ->
   parse_pitch_histogram h
     = Ok (if truthy (total xs) then map (fun x => div x (total xs)) xs else uniform)) /\
  (forall (w : World) (opt : Options) (arg d : string) (dens : Z),
     control opt = Some arg -> isfile w arg = false -> isdir w arg = false ->
     split ";" arg = [h; d] ->
     List.length (histogram_items h) = 12%nat ->
     forallb (fun x => geb x zero) xs = true ->
     parse_note_density w d = Ok dens -> 0 <= batch_size opt ->
     exists r, resolve_control w opt = Ok r /\
       control_text r =
         Inline {| pitch_histogram :=
                     if truthy (total xs) then map (fun x => div x (total xs)) xs
                     else uniform;
                   note_density := dens |}) /\
  (List.length (histogram_items h) <> 12%nat ->
   List.length (histogram_items h) <> 0%nat ->
   parse_pitch_histogram h = Err HistogramSize) /\
  (forall h', histogram_items h' = histogram_items h ->
              parse_pitch_histogram h' = parse_pitch_histogram h) /\
  histogram_items (String "," h) = histogram_items h /\
  histogram_items (h ++ ",") = histogram_items h /\
  (forall a b, histogram_items (a ++ ",," ++ b) = histogram_items (a ++ "," ++ b)).
Proof.
  intros Hm. pose proof (mapM_length _ _ _ Hm) as Hlen.
  assert (Hacc : List.length (histogram_items h) = 12%nat ->
            forallb (fun x => geb x zero) xs = true ->
            parse_pitch_histogram h
              = Ok (if truthy (total xs) then map (fun x => div x (total xs)) xs
                    else uniform)).
  { intros Hl Hg. apply parse_pitch_histogram_ok. right.
    exists xs. repeat split; auto. congruence. }
  split; [exact Hacc|]. split; [|split; [|split; [|split; [|split]]]].
  - intros w opt arg d dens Hc Hf Hd Hs Hl Hg Hn Hb.
    rewrite (resolve_control_inline w opt arg Hc Hf Hd).
    eexists. split.
    + apply (resolve_inline_ok w opt arg h d _ Hs).
      eexists; exists dens. repeat split; [exact (Hacc Hl Hg) | exact Hn | exact Hb].
    + reflexivity.
  - intros H12 H0. unfold parse_pitch_histogram.
    apply Nat.eqb_neq in H0. rewrite H0. rewrite Hm; simpl.
    rewrite Hlen. apply Nat.eqb_neq in H12. rewrite H12. reflexivity.
  - intros h'. apply parse_pitch_histogram_items.
  - exact (histogram_items_app "" h).
  - rewrite (histogram_items_app h ""). apply app_nil_r.
  - intros a b. change (a ++ ",," ++ b) with (a ++ String "," (String "," b)).
    change (a ++ "," ++ b) with (a ++ String "," b).
    rewrite (histogram_items_app a (String "," b)), (histogram_items_app a b).
    reflexivity.
Qed.

Lemma empty_items_ignored_witness :
  (histogram_items ",2,0,1,1,,0,1,0,1,1,0,0,1,"
     = ["2"; "0"; "1"; "1"; "0"; "1"; "0"; "1"; "1"; "0"; "0"; "1"] /\
   List.length (split "," ",2,0,1,1,,0,1,0,1,1,0,0,1,") = 15%nat /\
   mapM (float (N := Exact)) (histogram_items ",2,0,1,1,,0,1,0,1,1,0,0,1,")
     = Ok (map inject_Z [2; 0; 1; 1; 0; 1; 0; 1; 1; 0; 0; 1])) /\
  parse_pitch_histogram (N := Exact) ",2,0,1,1,,0,1,0,1,1,0,0,1,"
    = Ok (map (fun x => (x # 8)%Q) [2; 0; 1; 1; 0; 1; 0; 1; 1; 0; 0; 1]).
Proof.
  split; [repeat split|].
  exact (proj1 (empty_items_ignored (N := Exact) ",2,0,1,1,,0,1,0,1,1,0,0,1,"
                 (map inject_Z [2; 0; 1; 1; 0; 1; 0; 1; 1; 0; 0; 1]) eq_refl)
           eq_refl eq_refl).
Defined.

(** ** Rounding in binary64

    Every addition and division of values that are not negative is
    within [2^-50] of the exact result, relative to that result, up to
    [2^-1072] when a quotient falls among the subnormal numbers; this
    is read off the definitions of [SpecFloat], which specify the
    primitive operations. *)






















Lemma loc_of_loc (m : Z) (l : SpecFloat.location) :
  SpecFloat.loc_of_shr_record (SpecFloat.shr_record_of_loc m l) = l.
Proof. destruct l as [|[]]; reflexivity. Qed.






























































(** The sum is that of the [float64] values, not of the decimal numbers
    written: items too small for [float64] are read as zero, and a histogram
    of such items, whose decimal sum is positive, resolves to the uniform
    one. *)
Lemma histogram_underflow :
  mapM (float (N := Binary64)) (histogram_items "1e-400,2e-400,0,0,0,0,0,0,0,0,0,0")
    = Ok (repeat PrimFloat.zero 12) /\
  parse_pitch_histogram (N := Binary64) "1e-400,2e-400,0,0,0,0,0,0,0,0,0,0"
    = Ok (uniform (N := Binary64)).
Proof.
  split; vm_compute; reflexivity.
Qed.


(** ** Directories *)

(** C2. When the control argument names a directory, the files found in it are
    listed.  If none is found, resolution fails at the assertion.  Otherwise
    exactly one of them is selected -- the one at the drawn index, a uniform
    draw over the positions of the list -- and resolution goes on with that
    file alone: it succeeds if and only if the selected file loads, its array
    decompresses, and the batch size is not negative. *)
Theorem directory_selects_one_file {N : Number} (w : World) (opt : Options) (arg : string) :
  control opt = Some arg -> isdir w arg = true ->
  (find_files_by_extensions w arg = [] ->
     resolve_control w opt = Err (NoFileIn arg)) /\
  (find_files_by_extensions w arg <> [] ->
     exists f,
       In f (find_files_by_extensions w arg) /\
       nth_error (find_files_by_extensions w arg)
         (random_draw w mod List.length (find_files_by_extensions w arg))%nat = Some f /\
       select_file w arg = Ok f /\
       (forall r, resolve_control w opt = Ok r -> control_text r = FromFile f) /\
       (is_ok (resolve_control w opt) = true <->
        exists c rows,
          load_data w f = Some c /\
          recover_compressed_array w c = Some rows /\
          0 <= batch_size opt)) /\
  (is_ok (resolve_control w opt) = true -> find_files_by_extensions w arg <> []).
Proof.
  intros Hc Hd.
  rewrite (resolve_control_path w opt arg Hc) by (rewrite Hd; apply orb_true_r).
  assert (Hnone : find_files_by_extensions w arg = [] ->
                  resolve_path w opt arg = Err (NoFileIn arg)).
  { intros He. unfold resolve_path.
    rewrite (select_file_of_dir w arg Hd), He. reflexivity. }
  split; [exact Hnone|]. split.
  - intros Hne.
    destruct (random_choice_some w _ Hne) as (f & Hf & Hin).
    assert (Hsel : select_file w arg = Ok f).
    { rewrite (select_file_of_dir w arg Hd).
      destruct (find_files_by_extensions w arg); [congruence|].
      rewrite Hf. reflexivity. }
    exists f. split; [exact Hin|]. split; [exact Hf|]. split; [exact Hsel|]. split.
    + intros r Hr. apply resolve_path_ok in Hr.
      destruct Hr as (path & ? & ? & Hp & _ & _ & _ & ->).
      rewrite Hsel in Hp; inversion Hp; reflexivity.
    + rewrite is_ok_true. split.
      * intros (r & Hr). apply resolve_path_ok in Hr.
        destruct Hr as (path & c & rows & Hp & Hl & Hr & Hb & _).
        rewrite Hsel in Hp; inversion Hp; subst path. eauto.
      * intros (c & rows & Hl & Hr & Hb). eexists.
        apply resolve_path_ok. exists f, c, rows. auto.
  - intros Hok He. rewrite (Hnone He) in Hok. discriminate.
Qed.

Lemma directory_selects_one_file_witness :
  (isdir (sample_world (N := Exact)) "data" = true /\
   find_files_by_extensions (sample_world (N := Exact)) "data"
     = ["data/a.data"; "data/b.data"]) /\
  resolve_control (N := Exact) sample_world (with_control "data" 0)
    = Ok {| controls := Some (map (fun v => repeat v 8) (sample_rows 5));
            resolved_max_len := 5;
            control_text := FromFile "data/b.data" |} /\
  find_files_by_extensions (sample_world (N := Exact)) "data" <> [].
Proof.
  split; [repeat split|]. split; [reflexivity|].
  refine (proj2 (proj2 (directory_selects_one_file (N := Exact) sample_world
            (with_control "data" 0) "data" eq_refl eq_refl)) eq_refl).
Defined.

(** A directory that is not empty, and whose file is found and selected, for
    which resolution nevertheless fails: the file does not load. *)
Lemma nonempty_directory_fails :
  isdir (unreadable_world (N := Exact)) "ctrl" = true /\
  listdir (unreadable_world (N := Exact)) "ctrl" = ["notes.data"] /\
  find_files_by_extensions (unreadable_world (N := Exact)) "ctrl" = ["ctrl/notes.data"] /\
  select_file (unreadable_world (N := Exact)) "ctrl" = Ok "ctrl/notes.data" /\
  resolve_control (N := Exact) unreadable_world (with_control "ctrl" 100)
    = Err (LoadError "ctrl/notes.data") /\
  run (N := Exact) unreadable_world (with_control "ctrl" 100)
    = Err (LoadError "ctrl/notes.data").
Proof.
  repeat split.
Qed.

(** * Beyond the control argument *)

(** ** Output names *)

Lemma length_append (a b : string) :
  String.length (a ++ b) = (String.length a + String.length b)%nat.
Proof. induction a as [|c a IH]; simpl; [reflexivity | rewrite IH; reflexivity]. Qed.

Lemma append_cancel_l (a s t : string) : a ++ s = a ++ t -> s = t.
Proof. induction a as [|c a IH]; simpl; intros H; [exact H | inversion H; auto]. Qed.

Lemma append_cancel_r (s a b : string) : a ++ s = b ++ s -> a = b.
Proof.
  revert b; induction a as [|c a IH]; intros [|c' b] H; simpl in H.
  - reflexivity.
  - apply (f_equal String.length) in H. simpl in H. rewrite length_append in H. lia.
  - apply (f_equal String.length) in H. simpl in H. rewrite length_append in H. lia.
  - inversion H; subst. f_equal. apply IH; assumption.
Qed.

Lemma length_zeros (k : nat) :
  String.length (string_of_list_ascii (repeat "0"%char k)) = k.
Proof. induction k as [|k IH]; simpl; [reflexivity | rewrite IH; reflexivity]. Qed.

Lemma length_zfill (width : nat) (s : string) :
  String.length (zfill width s) = Nat.max width (String.length s).
Proof. unfold zfill. rewrite length_append, length_zeros. lia. Qed.

(** The number a string of decimal digits stands for. *)
Lemma zeros_value (k : nat) (s : string) (d : Decimal.uint) :
  DecimalString.NilEmpty.uint_of_string s = Some d ->
  exists d',
    DecimalString.NilEmpty.uint_of_string
      (string_of_list_ascii (repeat "0"%char k) ++ s) = Some d' /\
    Nat.of_uint d' = Nat.of_uint d.
Proof.
  intros Hs. induction k as [|k (d' & Hd' & Hv)]; simpl.
  - exists d; auto.
  - exists (Decimal.D0 d'). rewrite Hd'. split; [reflexivity | exact Hv].
Qed.

Lemma format_03d_value (i : nat) :
  exists d,
    DecimalString.NilEmpty.uint_of_string (format_03d i) = Some d /\ Nat.of_uint d = i.
Proof.
  unfold format_03d, zfill.
  destruct (zeros_value
              (3 - String.length (DecimalString.NilEmpty.string_of_uint (Nat.to_uint i)))
              _ _ (DecimalString.NilEmpty.usu (Nat.to_uint i))) as (d & Hd & Hv).
  exists d. split; [exact Hd|].
  rewrite Hv. apply DecimalNat.Unsigned.of_to.
Qed.

Lemma format_03d_injective (i j : nat) : format_03d i = format_03d j -> i = j.
Proof.
  intros H.
  destruct (format_03d_value i) as (di & Hi & Vi).
  destruct (format_03d_value j) as (dj & Hj & Vj).
  rewrite H, Hj in Hi. inversion Hi; subst. reflexivity.
Qed.

Lemma output_name_injective (i j : nat) : output_name i = output_name j -> i = j.
Proof.
  unfold output_name. intros H.
  apply append_cancel_l, append_cancel_r in H.
  exact (format_03d_injective i j H).
Qed.

(** X1. The file names [output-NNN.mid] never collide: two different indices
    always give two different names, with no bound on the index.  A name has
    at least 14 characters, and exactly 14 (three digits) for every index
    below 1000. *)
Theorem output_names_distinct :
  (forall i j, output_name i = output_name j -> i = j) /\
  (forall i, (14 <= String.length (output_name i))%nat) /\
  (forall i, (i < 1000)%nat -> String.length (output_name i) = 14%nat).
Proof.
  split; [exact output_name_injective|]. split.
  - intros i. unfold output_name, format_03d.
    rewrite !length_append, length_zfill.
    change (String.length "output-") with 7%nat.
    change (String.length ".mid") with 4%nat.
    pose proof (Nat.le_max_l 3 (String.length
                  (DecimalString.NilEmpty.string_of_uint (Nat.to_uint i)))) as Hm.
    lia.
  - intros i Hi.
    assert (Hall : forallb (fun k => Nat.eqb (String.length (output_name k)) 14)
                     (seq 0 1000) = true) by (vm_compute; reflexivity).
    rewrite forallb_forall in Hall.
    apply Nat.eqb_eq. apply Hall. apply in_seq. lia.
Qed.

Lemma output_names_distinct_witness :
  (7 < 1000)%nat /\ String.length (output_name 7) = 14%nat /\
  output_name 7 = "output-007.mid" /\ output_name 1000 = "output-1000.mid".
Proof.
  split; [lia|]. split; [|split; reflexivity].
  apply (proj2 (proj2 output_names_distinct)). lia.
Defined.

(** ** Output paths *)

Lemma output_path_prefix (dir : string) :
  exists prefix,
    (prefix = dir \/ prefix = dir ++ "/") /\
    forall i, output_path dir i = prefix ++ output_name i.
Proof.
  unfold output_path, path_join.
  destruct (negb (nonempty dir) || ends_with_sep dir)%bool eqn:E.
  - exists dir. split; [auto|]. intros i. reflexivity.
  - exists (dir ++ "/"). split; [auto|]. intros i. simpl.
    induction dir as [|c dir' IH']; simpl; [reflexivity|].
    clear. f_equal. induction dir' as [|c' d IH]; simpl; [reflexivity | f_equal; exact IH].
Qed.

Lemma output_path_injective (dir : string) (i j : nat) :
  output_path dir i = output_path dir j -> i = j.
Proof.
  destruct (output_path_prefix dir) as (prefix & _ & Hp).
  rewrite !Hp. intros H. apply append_cancel_l in H.
  exact (output_name_injective i j H).
Qed.

(** X2. Every output file lies in the output directory under its own name:
    the path is the directory, a [/] unless the directory is empty or already
    ends with one, and then [output-NNN.mid].  For one directory, different
    indices give different paths, so no file of a run overwrites another. *)
Theorem output_paths_in_directory (dir : string) :
  (forall i, output_path dir i =
     if (negb (nonempty dir) || ends_with_sep dir)%bool
     then dir ++ output_name i
     else dir ++ "/" ++ output_name i) /\
  (forall i j, output_path dir i = output_path dir j -> i = j) /\
  (forall n, NoDup (map (output_path dir) (seq 0 n))).
Proof.
  split; [|split].
  - intros i. reflexivity.
  - exact (output_path_injective dir).
  - intros n. apply NoDup_map_NoDup_ForallPairs.
    + intros i j _ _. apply output_path_injective.
    + apply seq_NoDup.
Qed.

(** ** The saving loop *)

Section Saving.

Context {N : Number}.
Variables (b : Backend) (dir : string).

Lemma save_from_done (outputs : list (list Z)) (i k : nat) (s : Saved) :
  nth_error (fst (save_from b dir i outputs)) k = Some s ->
  saved_path s = output_path dir (i + k) /\
  nth_error outputs k = Some (saved_events s) /\
  event_indeces_to_midi_file b (saved_events s) (saved_path s) = Some (saved_notes s).
Proof.
  revert i k; induction outputs as [|output rest IH]; intros i k; simpl.
  - destruct k; discriminate.
  - destruct (event_indeces_to_midi_file b output (output_path dir i)) as [n|] eqn:E.
    + destruct (save_from b dir (S i) rest) as (done, stopped) eqn:Er.
      destruct k as [|k]; simpl.
      * intros H; inversion H; subst; simpl.
        rewrite Nat.add_0_r. repeat split. exact E.
      * intros H. specialize (IH (S i) k). rewrite Er in IH.
        destruct (IH H) as (Hp & Hn & He).
        replace (i + S k)%nat with (S i + k)%nat by lia. repeat split; assumption.
    + destruct k; discriminate.
Qed.

Lemma save_from_stopped (outputs : list (list Z)) (i : nat) :
  match snd (save_from b dir i outputs) with
  | None => List.length (fst (save_from b dir i outputs)) = List.length outputs
  | Some path =>
      let k := List.length (fst (save_from b dir i outputs)) in
      path = output_path dir (i + k) /\
      exists output,
        nth_error outputs k = Some output /\
        event_indeces_to_midi_file b output path = None
  end.
Proof.
  revert i; induction outputs as [|output rest IH]; intros i; simpl.
  - reflexivity.
  - destruct (event_indeces_to_midi_file b output (output_path dir i)) as [n|] eqn:E.
    + specialize (IH (S i)).
      destruct (save_from b dir (S i) rest) as (done, [path|]); simpl in *.
      * destruct IH as (Hp & out & Hn & He).
        replace (i + S (List.length done))%nat with (S i + List.length done)%nat by lia.
        split; [exact Hp|]. exists out. auto.
      * rewrite IH. reflexivity.
    + simpl. rewrite Nat.add_0_r. split; [reflexivity|].
      exists output. auto.
Qed.

Lemma save_from_all (outputs : list (list Z)) (i : nat) :
  (forall k output, nth_error outputs k = Some output ->
     event_indeces_to_midi_file b output (output_path dir (i + k)) <> None) ->
  snd (save_from b dir i outputs) = None /\
  map write_of (fst (save_from b dir i outputs))
    = map (fun k => WriteMidi (output_path dir (i + k)) (nth k outputs []))
          (seq 0 (List.length outputs)).
Proof.
  revert i; induction outputs as [|output rest IH]; intros i Hall; simpl.
  - auto.
  - destruct (event_indeces_to_midi_file b output (output_path dir i)) as [n|] eqn:E.
    + destruct (IH (S i)) as (Hs & Hm).
      { intros k out Hk. replace (S i + k)%nat with (i + S k)%nat by lia.
        apply Hall. exact Hk. }
      destruct (save_from b dir (S i) rest) as (done, stopped); simpl in *.
      split; [exact Hs|]. rewrite Hm. unfold write_of; simpl.
      rewrite Nat.add_0_r. f_equal.
      rewrite <- seq_shift, map_map.
      apply map_ext. intros k. replace (i + S k)%nat with (S (i + k)) by lia.
      reflexivity.
    + exfalso. apply (Hall 0%nat output eq_refl). rewrite Nat.add_0_r. exact E.
Qed.

End Saving.

(** X3. The saving loop works through the batch in index order: whatever has
    been saved, the [k]-th saved file is row [k] of the outputs, written to
    the path of index [k], and its printed note count is what the MIDI writer
    returned for it.  The loop saves every row exactly when no call of the
    writer raises. *)
Theorem saved_in_index_order {N : Number} (b : Backend) (dir : string)
    (outputs : list (list Z)) :
  (forall k s, nth_error (fst (save_from b dir 0 outputs)) k = Some s ->
     saved_path s = output_path dir k /\
     nth_error outputs k = Some (saved_events s) /\
     event_indeces_to_midi_file b (saved_events s) (saved_path s) = Some (saved_notes s)) /\
  (List.length (fst (save_from b dir 0 outputs)) <= List.length outputs)%nat /\
  (snd (save_from b dir 0 outputs) = None <->
   List.length (fst (save_from b dir 0 outputs)) = List.length outputs) /\
  (snd (save_from b dir 0 outputs) = None <->
   forall k output, nth_error outputs k = Some output ->
     event_indeces_to_midi_file b output (output_path dir k) <> None).
Proof.
  pose proof (save_from_stopped b dir outputs 0) as Hstop.
  assert (Hdone := fun k s => save_from_done b dir outputs 0 k s).
  simpl in Hstop, Hdone.
  split; [exact Hdone|].
  assert (Hlen : (List.length (fst (save_from b dir 0 outputs)) <= List.length outputs)%nat).
  { destruct (snd (save_from b dir 0 outputs)) as [path|].
    - destruct Hstop as (_ & out & Hn & _).
      apply Nat.lt_le_incl. apply nth_error_Some. congruence.
    - lia. }
  split; [exact Hlen|]. split.
  - destruct (snd (save_from b dir 0 outputs)) as [path|].
    + destruct Hstop as (_ & out & Hn & _).
      assert (List.length (fst (save_from b dir 0 outputs)) < List.length outputs)%nat
        by (apply nth_error_Some; congruence).
      split; [discriminate | lia].
    + split; auto.
  - split.
    + intros Hnone k output Hk Hw. rewrite Hnone in Hstop.
      assert (Hlt : (k < List.length (fst (save_from b dir 0 outputs)))%nat).
      { rewrite Hstop. apply nth_error_Some. congruence. }
      apply nth_error_Some in Hlt.
      destruct (nth_error (fst (save_from b dir 0 outputs)) k) as [s|] eqn:Es; [|congruence].
      destruct (Hdone k s Es) as (Hp & Hn & He).
      rewrite Hk in Hn. inversion Hn; subst output. rewrite Hp in He. congruence.
    + intros Hall. apply (save_from_all b dir outputs 0). exact Hall.
Qed.

Lemma saved_in_index_order_witness :
  nth_error (fst (save_from (N := Exact) (sample_backend sample_outputs "") "out" 0
                    [[1; 4]; [2; 5]; [3; 6]])) 2
    = Some {| saved_path := "out/output-002.mid"; saved_events := [3; 6]; saved_notes := 2 |} /\
  nth_error [[1; 4]; [2; 5]; [3; 6]] 2 = Some [3; 6].
Proof.
  split; [reflexivity|].
  exact (proj1 (proj2 (proj1 (saved_in_index_order (N := Exact)
           (sample_backend sample_outputs "") "out" [[1; 4]; [2; 5]; [3; 6]])
           2%nat _ eq_refl))).
Defined.

(** X4. The saving loop stops at the first call of the MIDI writer that
    raises.  If that is the call for index [k], the calls for the indices
    below [k] have all returned and their files stay written, no call is made
    for an index above [k], and the path at which the loop stopped is the
    path of index [k]. *)
Theorem save_stops_at_first_failure {N : Number} (b : Backend) (dir : string)
    (outputs : list (list Z)) (path : string) :
  snd (save_from b dir 0 outputs) = Some path ->
  let k := List.length (fst (save_from b dir 0 outputs)) in
  (k < List.length outputs)%nat /\
  path = output_path dir k /\
  (exists output,
     nth_error outputs k = Some output /\
     event_indeces_to_midi_file b output path = None) /\
  (forall j output, (j < k)%nat -> nth_error outputs j = Some output ->
     event_indeces_to_midi_file b output (output_path dir j) <> None) /\
  map saved_path (fst (save_from b dir 0 outputs)) = map (output_path dir) (seq 0 k).
Proof.
  intros Hs k.
  pose proof (save_from_stopped b dir outputs 0) as Hstop.
  rewrite Hs in Hstop. simpl in Hstop. destruct Hstop as (Hp & out & Hn & He).
  fold k in Hp, Hn.
  assert (Hdone := fun j s => save_from_done b dir outputs 0 j s). simpl in Hdone.
  split; [apply nth_error_Some; congruence|].
  split; [exact Hp|]. split; [eauto|]. split.
  - intros j output Hj Hk Hw.
    apply nth_error_Some in Hj.
    destruct (nth_error (fst (save_from b dir 0 outputs)) j) as [s|] eqn:Es; [|congruence].
    destruct (Hdone j s Es) as (Hp' & Hn' & He').
    rewrite Hk in Hn'. inversion Hn'; subst output. rewrite Hp' in He'. congruence.
  - apply nth_error_ext. intros j.
    rewrite !nth_error_map.
    destruct (nth_error (fst (save_from b dir 0 outputs)) j) as [s|] eqn:Es; simpl.
    + destruct (Hdone j s Es) as (Hp' & _).
      assert (Hj : (j < k)%nat) by (apply nth_error_Some; congruence).
      rewrite nth_error_seq. destruct (Nat.ltb_spec j k); [|lia]. simpl.
      rewrite Hp'. reflexivity.
    + apply nth_error_None in Es. fold k in Es.
      rewrite nth_error_seq. destruct (Nat.ltb_spec j k); [lia|]. reflexivity.
Qed.

Lemma save_stops_at_first_failure_witness :
  snd (save_from (N := Exact) (sample_backend sample_outputs "out/output-001.mid") "out" 0
         [[1; 4]; [2; 5]; [3; 6]]) = Some "out/output-001.mid" /\
  map saved_path
      (fst (save_from (N := Exact) (sample_backend sample_outputs "out/output-001.mid") "out" 0
              [[1; 4]; [2; 5]; [3; 6]]))
    = ["out/output-000.mid"].
Proof.
  split; [reflexivity|].
  exact (proj2 (proj2 (proj2 (proj2 (save_stops_at_first_failure (N := Exact)
           (sample_backend sample_outputs "out/output-001.mid") "out"
           [[1; 4]; [2; 5]; [3; 6]] "out/output-001.mid" eq_refl))))).
Defined.

(** ** Transposition *)

Lemma nth_nil (j : nat) : nth j (@nil Z) 0 = 0.
Proof. destruct j; reflexivity. Qed.

Lemma map_nth_seq {A : Type} (l : list A) (d : A) :
  map (fun j => nth j l d) (seq 0 (List.length l)) = l.
Proof.
  induction l as [|x l IH]; simpl; [reflexivity|].
  f_equal. rewrite <- seq_shift, map_map. exact IH.
Qed.

Lemma rows_transpose (a : ndarray) :
  rows (transpose a) = map (column a) (seq 0 (shape1 a)).
Proof. reflexivity. Qed.

Lemma transpose_well_shaped (a : ndarray) :
  well_shaped a -> well_shaped (transpose a).
Proof.
  unfold well_shaped, transpose; simpl. intros (Hn & _). split.
  - rewrite length_map, length_seq. reflexivity.
  - apply Forall_forall. intros r Hr. apply in_map_iff in Hr.
    destruct Hr as (j & <- & _). rewrite length_map. exact Hn.
Qed.

Lemma transpose_involutive (a : ndarray) :
  well_shaped a -> transpose (transpose a) = a.
Proof.
  destruct a as [n m R]. unfold well_shaped, transpose; simpl.
  intros (Hn & Hm). f_equal. subst n.
  transitivity (map (fun i => nth i R []) (seq 0 (List.length R)));
    [|apply map_nth_seq].
  apply map_ext_in. intros i Hi. apply in_seq in Hi.
  rewrite map_map.
  assert (Hrow : List.length (nth i R []) = m).
  { rewrite Forall_forall in Hm. apply Hm. apply nth_In. lia. }
  transitivity (map (fun j => nth j (nth i R []) 0) (seq 0 m));
    [|rewrite <- Hrow; apply map_nth_seq].
  apply map_ext. intros j.
  rewrite <- (nth_nil j) at 1.
  exact (map_nth (fun r => nth j r 0) R [] i).
Qed.

(** X5. Transposing the decoded array swaps its two dimensions: the result
    has one row per batch element, row [j] being column [j] of the decoded
    array (the events of batch element [j], step by step), whatever the
    number of steps, zero included.  For an array whose rows agree with its
    shape, so do the rows of the transposed array, and transposing twice
    gives the array back. *)
Theorem transpose_rows_are_columns (a : ndarray) :
  shape0 (transpose a) = shape1 a /\
  shape1 (transpose a) = shape0 a /\
  (well_shaped a -> well_shaped (transpose a)) /\
  (forall j, (j < shape1 a)%nat ->
     nth_error (rows (transpose a)) j = Some (column a j)) /\
  (forall i j, (i < shape0 a)%nat -> (j < shape1 a)%nat ->
     nth i (nth j (rows (transpose a)) []) 0 = nth j (nth i (rows a) []) 0) /\
  (well_shaped a -> transpose (transpose a) = a).
Proof.
  split; [reflexivity|]. split; [reflexivity|].
  split; [apply transpose_well_shaped|]. split; [|split].
  - intros j Hj. rewrite rows_transpose, nth_error_map, nth_error_seq.
    destruct (Nat.ltb_spec j (shape1 a)); [reflexivity | lia].
  - intros i j Hi Hj. rewrite rows_transpose.
    rewrite (nth_indep _ [] (column a 0)) by (rewrite length_map, length_seq; exact Hj).
    rewrite (map_nth (column a) (seq 0 (shape1 a)) 0%nat j), seq_nth by exact Hj.
    unfold column. simpl.
    rewrite <- (nth_nil j) at 1.
    exact (map_nth (fun r => nth j r 0) (rows a) [] i).
  - apply transpose_involutive.
Qed.

Lemma transpose_rows_are_columns_witness :
  well_shaped sample_outputs /\
  transpose (transpose sample_outputs) = sample_outputs /\
  rows (transpose sample_outputs) = [[1; 4]; [2; 5]; [3; 6]] /\
  rows (transpose {| shape0 := 0; shape1 := 3; rows := [] |}) = [[]; []; []].
Proof.
  assert (H : well_shaped sample_outputs).
  { split; [reflexivity|]. repeat constructor. }
  split; [exact H|]. split; [|split; reflexivity].
  exact (proj2 (proj2 (proj2 (proj2 (proj2
           (transpose_rows_are_columns sample_outputs))))) H).
Defined.

(** ** The script as a whole *)

Lemma saved_paths {N : Number} (b : Backend) (dir : string)
    (outputs : list (list Z)) (i : nat) :
  map saved_path (fst (save_from b dir i outputs))
    = map (output_path dir) (seq i (List.length (fst (save_from b dir i outputs)))).
Proof.
  revert i; induction outputs as [|output rest IH]; intros i; simpl; [reflexivity|].
  destruct (event_indeces_to_midi_file b output (output_path dir i)); [|reflexivity].
  specialize (IH (S i)).
  destruct (save_from b dir (S i) rest) as (done, stopped); simpl in *.
  f_equal. exact IH.
Qed.

Section Effects.

Context {N : Number}.
Variables (w : World) (b : Backend) (opt : Options).

Lemma script_shape :
  (fst (script w b opt) = [] /\
   snd (script w b opt) <> Finished /\
   forall path, snd (script w b opt) <> WriteRaised path) \/
  (exists rn outputs,
     run w opt = Ok rn /\
     decode b (call rn) = Some outputs /\
     makedirs b (output_dir opt) = true /\
     fst (script w b opt)
       = MakeDirs (output_dir opt)
           :: map write_of
                (fst (save_from b (output_dir opt) 0 (rows (transpose outputs)))) /\
     snd (script w b opt)
       = match snd (save_from b (output_dir opt) 0 (rows (transpose outputs))) with
         | Some path => WriteRaised path
         | None => Finished
         end).
Proof.
  unfold script.
  destruct (run w opt) as [rn|e] eqn:Er; [|left; simpl; repeat split; discriminate].
  destruct (decode b (call rn)) as [outputs|] eqn:Ed;
    [|left; simpl; repeat split; discriminate].
  destruct (makedirs b (output_dir opt)) eqn:Em; [|left; simpl; repeat split; discriminate].
  right. exists rn, outputs.
  destruct (save_from b (output_dir opt) 0 (rows (transpose outputs))) as (done, stopped).
  simpl. repeat split; assumption.
Qed.

End Effects.

(** X6. The script touches the file system only once it is through decoding:
    if it stops before the decode call, or the decode call or the creation of
    the output directory raises, no call that creates a directory or writes a
    file has completed.  Otherwise the directory is created first, exactly
    once, and everything after it is a MIDI file written inside the output
    directory, the [k]-th to the path of index [k], so no two writes go to
    the same path. *)
Theorem files_only_after_decoding {N : Number} (w : World) (b : Backend) (opt : Options) :
  (forall e, snd (script w b opt) = Stopped e -> fst (script w b opt) = []) /\
  (snd (script w b opt) = DecodeRaised -> fst (script w b opt) = []) /\
  (forall dir, snd (script w b opt) = MakeDirsRaised dir -> fst (script w b opt) = []) /\
  (forall e, run w opt = Err e -> script w b opt = ([], Stopped e)) /\
  (fst (script w b opt) = [] \/
   exists saved,
     fst (script w b opt) = MakeDirs (output_dir opt) :: map write_of saved /\
     map saved_path saved = map (output_path (output_dir opt)) (seq 0 (List.length saved)) /\
     NoDup (map saved_path saved)).
Proof.
  destruct (script_shape w b opt) as [(He & Hf & Hw)|(rn & outputs & Hr & Hd & Hm & Hfst & Hsnd)].
  - repeat split; auto.
    intros e Hrun. unfold script. rewrite Hrun. reflexivity.
  - split; [|split; [|split; [|split]]].
    + intros e H. rewrite Hsnd in H.
      destruct (snd (save_from b (output_dir opt) 0 (rows (transpose outputs)))); discriminate.
    + intros H. rewrite Hsnd in H.
      destruct (snd (save_from b (output_dir opt) 0 (rows (transpose outputs)))); discriminate.
    + intros dir H. rewrite Hsnd in H.
      destruct (snd (save_from b (output_dir opt) 0 (rows (transpose outputs)))); discriminate.
    + intros e Hrun. rewrite Hrun in Hr. discriminate.
    + right. exists (fst (save_from b (output_dir opt) 0 (rows (transpose outputs)))).
      split; [exact Hfst|].
      assert (Hpaths := saved_paths b (output_dir opt) (rows (transpose outputs)) 0).
      split; [exact Hpaths|]. rewrite Hpaths.
      apply NoDup_map_NoDup_ForallPairs.
      * intros i j _ _. apply output_path_injective.
      * apply seq_NoDup.
Qed.

Lemma files_only_after_decoding_witness :
  run (N := Exact) sample_world default_options = Err NoLength /\
  script (N := Exact) sample_world (sample_backend sample_outputs "") default_options
    = ([], Stopped NoLength).
Proof.
  split; [reflexivity|].
  exact (proj1 (proj2 (proj2 (proj2 (files_only_after_decoding (N := Exact) sample_world
           (sample_backend sample_outputs "") default_options)))) NoLength eq_refl).
Defined.

(** X7. When the run reaches decoding, the output directory can be created,
    and the MIDI writer raises for no batch element, the script finishes
    having written exactly one file per batch element -- as many as the
    second dimension of the decoded array, whatever the requested batch size
    -- in index order, file [k] holding column [k] of the decoded array: the
    events of batch element [k] over all steps. *)
Theorem one_file_per_batch_element {N : Number} (w : World) (b : Backend) (opt : Options)
    (rn : Run) (outputs : ndarray) :
  run w opt = Ok rn ->
  decode b (call rn) = Some outputs ->
  makedirs b (output_dir opt) = true ->
  (forall k, (k < shape1 outputs)%nat ->
     event_indeces_to_midi_file b (column outputs k) (output_path (output_dir opt) k)
       <> None) ->
  script w b opt
    = (MakeDirs (output_dir opt)
         :: map (fun k => WriteMidi (output_path (output_dir opt) k) (column outputs k))
              (seq 0 (shape1 outputs)),
       Finished).
Proof.
  intros Hr Hd Hm Hw.
  assert (Hrows : forall k output,
            nth_error (rows (transpose outputs)) k = Some output ->
            (k < shape1 outputs)%nat /\ output = column outputs k).
  { intros k output Hk. rewrite rows_transpose, nth_error_map, nth_error_seq in Hk.
    destruct (Nat.ltb_spec k (shape1 outputs)); simpl in Hk; [|discriminate].
    inversion Hk. auto. }
  destruct (save_from_all b (output_dir opt) (rows (transpose outputs)) 0) as (Hs & Hmap).
  { intros k output Hk. destruct (Hrows k output Hk) as (Hlt & ->).
    apply Hw. exact Hlt. }
  unfold script. rewrite Hr, Hd, Hm.
  destruct (save_from b (output_dir opt) 0 (rows (transpose outputs))) as (done, stopped).
  cbn [fst snd] in Hs, Hmap. subst stopped. f_equal. f_equal.
  rewrite Hmap, rows_transpose, length_map, length_seq.
  apply map_ext_in. intros k Hk. apply in_seq in Hk.
  rewrite Nat.add_0_l. f_equal.
  rewrite (nth_indep _ [] (column outputs 0)) by (rewrite length_map, length_seq; lia).
  rewrite (map_nth (column outputs) (seq 0 (shape1 outputs)) 0%nat k), seq_nth by lia.
  reflexivity.
Qed.

Lemma one_file_per_batch_element_witness :
  run (N := Exact) sample_world (with_beam 3 10)
    = Ok (finish (with_beam 3 10) None (unconditioned 10) 32) /\
  script (N := Exact) sample_world (sample_backend sample_outputs "") (with_beam 3 10)
    = ([MakeDirs "output/";
        WriteMidi "output/output-000.mid" [1; 4];
        WriteMidi "output/output-001.mid" [2; 5];
        WriteMidi "output/output-002.mid" [3; 6]], Finished).
Proof.
  split; [reflexivity|].
  refine (one_file_per_batch_element (N := Exact) sample_world
            (sample_backend sample_outputs "") (with_beam 3 10)
            (finish (with_beam 3 10) None (unconditioned 10) 32) sample_outputs
            eq_refl eq_refl eq_refl _).
  intros k Hk. destruct k as [|[|[|k]]]; [discriminate..|].
  exfalso. simpl in Hk. lia.
Defined.

(** ** Unpacking an inline control *)

Lemma split_length (sep : ascii) (s : string) :
  List.length (split sep s) = S (count_char sep s).
Proof.
  induction s as [|c s IH]; simpl; [reflexivity|].
  destruct (Ascii.eqb c sep); simpl.
  - rewrite IH. reflexivity.
  - pose proof (split_not_nil sep s) as Hne.
    destruct (split sep s); [congruence | exact IH].
Qed.

Lemma split_no_sep (sep : ascii) (s : string) :
  count_char sep s = 0%nat <-> split sep s = [s].
Proof.
  split.
  - induction s as [|c s IH]; simpl; [reflexivity|].
    destruct (Ascii.eqb c sep); simpl; [discriminate|].
    intros H. rewrite (IH H). reflexivity.
  - intros H. apply (f_equal (@List.length string)) in H.
    rewrite split_length in H. simpl in H. lia.
Qed.

Lemma split_pair (sep : ascii) (s h d : string) :
  split sep s = [h; d] <->
  s = h ++ String sep d /\ count_char sep h = 0%nat /\ count_char sep d = 0%nat.
Proof.
  split.
  - revert h; induction s as [|c s IH]; intros h; simpl; [discriminate|].
    destruct (Ascii.eqb_spec c sep) as [->|Hc].
    + intros H; inversion H as [[Hh Hd]].
      assert (Hcount : count_char sep s = 0%nat).
      { pose proof (split_length sep s) as Hlen. rewrite Hd in Hlen.
        simpl in Hlen. lia. }
      apply split_no_sep in Hcount as Hsingle.
      rewrite Hsingle in Hd. inversion Hd; subst. auto.
    + pose proof (split_not_nil sep s) as Hne.
      destruct (split sep s) as [|x xs] eqn:Es; [congruence|].
      intros H; inversion H; subst.
      destruct (IH x eq_refl) as (-> & Hx & Hd).
      simpl. apply Ascii.eqb_neq in Hc. rewrite Hc. auto.
  - intros (-> & Hh & Hd). rewrite split_app.
    apply split_no_sep in Hh, Hd. rewrite Hh, Hd. reflexivity.
Qed.

Lemma resolve_inline_not_unpack {N : Number} (w : World) (opt : Options)
    (arg h d : string) :
  split ";" arg = [h; d] -> resolve_inline w opt arg <> Err UnpackError.
Proof.
  intros Hs. unfold resolve_inline. rewrite Hs.
  destruct (parse_pitch_histogram h) as [hist|e] eqn:Hh; simpl.
  - unfold parse_note_density.
    destruct (int_of_string d) as [k|]; simpl; [|discriminate].
    unfold assert. destruct (_ && _)%bool; simpl; [|discriminate].
    unfold repeat_batch, assert. destruct (0 <=? batch_size opt); simpl; discriminate.
  - intros E; inversion E; subst e.
    destruct (parse_pitch_histogram_err h _ Hh) as [H'|[H'|(x & H')]]; discriminate H'.
Qed.

(** X8. A control argument that names no file or directory is unpacked into a
    histogram half and a density half exactly when it contains one
    semicolon: the halves are then the text before and the text after it.
    With no semicolon, or with more than one, resolution fails on unpacking,
    whatever the rest of the argument is. *)
Theorem inline_needs_one_semicolon {N : Number} (w : World) (opt : Options) (arg : string) :
  control opt = Some arg -> isfile w arg = false -> isdir w arg = false ->
  (count_char ";" arg <> 1%nat -> resolve_control w opt = Err UnpackError) /\
  (count_char ";" arg = 1%nat ->
     resolve_control w opt <> Err UnpackError /\
     exists h d,
       split ";" arg = [h; d] /\ arg = h ++ ";" ++ d /\
       count_char ";" h = 0%nat /\ count_char ";" d = 0%nat) /\
  (forall h d, count_char ";" h = 0%nat -> count_char ";" d = 0%nat ->
     split ";" (h ++ ";" ++ d) = [h; d]).
Proof.
  intros Hc Hf Hd. rewrite (resolve_control_inline w opt arg Hc Hf Hd).
  pose proof (split_length ";" arg) as Hlen.
  split; [|split].
  - intros Hne. unfold resolve_inline.
    destruct (split ";" arg) as [|h [|d [|? ?]]]; try reflexivity.
    simpl in Hlen. exfalso. apply Hne. lia.
  - intros H1. rewrite H1 in Hlen.
    destruct (split ";" arg) as [|h [|d [|? ?]]] eqn:Hs; try discriminate.
    split; [exact (resolve_inline_not_unpack w opt arg h d Hs)|].
    exists h, d. apply split_pair in Hs. destruct Hs as (-> & Hh & Hd').
    repeat split; auto.
  - intros h d Hh Hd'. apply split_pair. auto.
Qed.

Lemma inline_needs_one_semicolon_witness :
  (count_char ";" "1,2;3;4" = 2%nat /\
   isfile (sample_world (N := Exact)) "1,2;3;4" = false) /\
  resolve_control (N := Exact) sample_world (with_control "1,2;3;4" 10) = Err UnpackError.
Proof.
  split; [split; reflexivity|].
  refine (proj1 (inline_needs_one_semicolon (N := Exact) sample_world
                   (with_control "1,2;3;4" 10) "1,2;3;4" eq_refl eq_refl eq_refl) _).
  discriminate.
Defined.

(** ** Rejected histograms *)

Lemma float_failure {N : Number} (x : string) (e : failure) :
  float x = Err e -> e = FloatError x.
Proof.
  unfold float. destruct (float_literal_of_string x) as [lit|]; [|congruence].
  destruct (of_literal lit); simpl; congruence.
Qed.

Lemma mapM_first_failure {N : Number} (pre post : list string) (x : string) (e : failure) :
  Forall (fun s => is_ok (float s) = true) pre ->
  float x = Err e ->
  mapM float (pre ++ x :: post) = Err e.
Proof.
  intros Hpre Hx. induction Hpre as [|s pre Hs _ IH]; simpl.
  - rewrite Hx. reflexivity.
  - destruct (float s); [|discriminate]. simpl. rewrite IH. reflexivity.
Qed.

(** X9. The histogram items are read left to right, and the first one that is
    not a number stops everything: the failure names that item, and it is
    reported whatever the number of items, the sign of the others, or the
    density half. *)
Theorem first_bad_item_reported {N : Number} (w : World) (opt : Options)
    (arg h d : string) (pre post : list string) (x : string) :
  control opt = Some arg -> isfile w arg = false -> isdir w arg = false ->
  split ";" arg = [h; d] ->
  histogram_items h = (pre ++ x :: post)%list ->
  Forall (fun s => is_ok (float s) = true) pre ->
  is_ok (float x) = false ->
  parse_pitch_histogram h = Err (FloatError x) /\
  resolve_control w opt = Err (FloatError x).
Proof.
  intros Hc Hf Hd Hs Hi Hpre Hx.
  assert (Hfx : float x = Err (FloatError x)).
  { destruct (float x) as [v|e] eqn:E; [discriminate|].
    rewrite (float_failure x e E). reflexivity. }
  assert (Hh : parse_pitch_histogram h = Err (FloatError x)).
  { unfold parse_pitch_histogram. rewrite Hi.
    rewrite (mapM_first_failure pre post x _ Hpre Hfx).
    destruct pre; reflexivity. }
  split; [exact Hh|].
  rewrite (resolve_control_inline w opt arg Hc Hf Hd).
  unfold resolve_inline. rewrite Hs, Hh. reflexivity.
Qed.

Lemma first_bad_item_reported_witness :
  (histogram_items "1,-2,x,4,y" = (["1"; "-2"] ++ "x" :: ["4"; "y"])%list /\
   is_ok (float (N := Exact) "x") = false) /\
  resolve_control (N := Exact) sample_world (with_control "1,-2,x,4,y;99" 10)
    = Err (FloatError "x").
Proof.
  split; [split; reflexivity|].
  refine (proj2 (first_bad_item_reported (N := Exact) sample_world
            (with_control "1,-2,x,4,y;99" 10) "1,-2,x,4,y;99" "1,-2,x,4,y" "99"
            ["1"; "-2"] ["4"; "y"] "x" eq_refl eq_refl eq_refl eq_refl eq_refl _ eq_refl)).
  repeat constructor.
Defined.

Lemma histogram_sign_failure {N : Number} (h : string) (xs : list num) :
  mapM float (histogram_items h) = Ok xs ->
  List.length xs = 12%nat ->
  forallb (fun x => geb x zero) xs = false ->
  parse_pitch_histogram h = Err HistogramNegative.
Proof.
  intros Hm Hl Hall. unfold parse_pitch_histogram.
  pose proof (mapM_length _ _ _ Hm) as Hlen.
  destruct (histogram_items h) as [|i items]; [rewrite Hl in Hlen; discriminate|].
  simpl Nat.eqb. cbv iota. rewrite Hm; simpl. rewrite Hl; simpl.
  rewrite Hall. reflexivity.
Qed.

(** X10. When the histogram items are 12 numbers and one of them fails the
    test [x >= 0], the histogram half is rejected by the sign assertion, and
    so is the control, whatever the other values and the density half.  In
    exact arithmetic the values that fail the test are the negative ones. *)
Theorem sign_check_rejects {N : Number} (w : World) (opt : Options)
    (arg h d : string) (xs : list num) :
  control opt = Some arg -> isfile w arg = false -> isdir w arg = false ->
  split ";" arg = [h; d] ->
  mapM float (histogram_items h) = Ok xs ->
  List.length xs = 12%nat ->
  Exists (fun x => geb x zero = false) xs ->
  parse_pitch_histogram h = Err HistogramNegative /\
  resolve_control w opt = Err HistogramNegative /\
  (forall q : Q, geb (Number := Exact) q zero = false <-> (q < 0)%Q).
Proof.
  intros Hc Hf Hd Hs Hm Hl Hex.
  assert (Hall : forallb (fun x => geb x zero) xs = false).
  { apply Exists_exists in Hex. destruct Hex as (x & Hin & Hx).
    destruct (forallb (fun x => geb x zero) xs) eqn:E; [|reflexivity].
    rewrite forallb_forall in E. rewrite (E x Hin) in Hx. discriminate. }
  assert (Hh : parse_pitch_histogram h = Err HistogramNegative)
    by exact (histogram_sign_failure h xs Hm Hl Hall).
  split; [exact Hh|]. split.
  - rewrite (resolve_control_inline w opt arg Hc Hf Hd).
    unfold resolve_inline. rewrite Hs, Hh. reflexivity.
  - intros q. change (geb (Number := Exact) q zero) with (Qle_bool 0 q).
    split.
    + intros H. apply Qnot_le_lt. intros Hle. apply Qle_bool_iff in Hle. congruence.
    + intros H. destruct (Qle_bool 0 q) eqn:E; [|reflexivity].
      apply Qle_bool_iff in E. exfalso. exact (Qlt_not_le _ _ H E).
Qed.

Lemma sign_check_rejects_witness :
  (mapM (float (N := Exact)) (histogram_items "1,1,1,1,1,1,1,1,1,1,1,-0.5")
     = Ok (repeat (inject_Z 1) 11 ++ [Qopp (5 # 10)])%list) /\
  resolve_control (N := Exact) sample_world
    (with_control "1,1,1,1,1,1,1,1,1,1,1,-0.5;3" 10) = Err HistogramNegative.
Proof.
  split; [reflexivity|].
  refine (proj1 (proj2 (sign_check_rejects (N := Exact) sample_world
            (with_control "1,1,1,1,1,1,1,1,1,1,1,-0.5;3" 10)
            "1,1,1,1,1,1,1,1,1,1,1,-0.5;3" "1,1,1,1,1,1,1,1,1,1,1,-0.5" "3"
            (repeat (inject_Z 1) 11 ++ [Qopp (5 # 10)])%list
            eq_refl eq_refl eq_refl eq_refl eq_refl eq_refl _))).
  apply Exists_exists. exists (Qopp (5 # 10)). split; [|reflexivity].
  apply in_or_app. right. left. reflexivity.
Defined.

(** X11. On binary64 a histogram item that reads as NaN -- [nan], in any
    letter case, signed or not -- is a number for [float] but fails
    [x >= 0]: among 12 numeric items it makes the sign assertion fail. *)
Theorem nan_item_rejected (w : World (N := Binary64)) (opt : Options (N := Binary64))
    (arg h d : string) (xs : list PrimFloat.float) (x : string) :
  control opt = Some arg -> isfile w arg = false -> isdir w arg = false ->
  split ";" arg = [h; d] ->
  mapM (float (N := Binary64)) (histogram_items h) = Ok xs ->
  List.length xs = 12%nat ->
  In x (histogram_items h) ->
  float_literal_of_string x = Some NaN ->
  float (N := Binary64) x = Ok PrimFloat.nan /\
  parse_pitch_histogram (N := Binary64) h = Err HistogramNegative /\
  resolve_control w opt = Err HistogramNegative.
Proof.
  intros Hc Hf Hd Hs Hm Hl Hin Hx.
  assert (Hfx : float (N := Binary64) x = Ok PrimFloat.nan).
  { unfold float. rewrite Hx. reflexivity. }
  assert (Hnan : In PrimFloat.nan xs).
  { apply mapM_ok in Hm. clear - Hm Hin Hfx.
    induction Hm as [|s y items ys Hy _ IH]; [contradiction|].
    destruct Hin as [->|Hin].
    - rewrite Hfx in Hy. inversion Hy. left; reflexivity.
    - right. apply IH. exact Hin. }
  assert (Hall : forallb (fun y => geb (Number := Binary64) y zero) xs = false).
  { destruct (forallb (fun y => geb (Number := Binary64) y zero) xs) eqn:E; [|reflexivity].
    rewrite forallb_forall in E. specialize (E _ Hnan).
    vm_compute in E. discriminate. }
  assert (Hh : parse_pitch_histogram (N := Binary64) h = Err HistogramNegative)
    by exact (histogram_sign_failure (N := Binary64) h xs Hm Hl Hall).
  split; [exact Hfx|]. split; [exact Hh|].
  rewrite (resolve_control_inline w opt arg Hc Hf Hd).
  unfold resolve_inline. rewrite Hs, Hh. reflexivity.
Qed.

Lemma nan_item_rejected_witness :
  (In "NaN" (histogram_items "1,1,1,1,1,NaN,1,1,1,1,1,1") /\
   float_literal_of_string "NaN" = Some NaN) /\
  resolve_control (N := Binary64) sample_world
    (with_control "1,1,1,1,1,NaN,1,1,1,1,1,1;3" 10) = Err HistogramNegative.
Proof.
  split; [split; [|reflexivity]|].
  - do 5 right. left. reflexivity.
  - refine (proj2 (proj2 (nan_item_rejected sample_world
              (with_control "1,1,1,1,1,NaN,1,1,1,1,1,1;3" 10)
              "1,1,1,1,1,NaN,1,1,1,1,1,1;3" "1,1,1,1,1,NaN,1,1,1,1,1,1" "3"
              _ "NaN" eq_refl eq_refl eq_refl eq_refl eq_refl eq_refl _ eq_refl))).
    do 5 right. left. reflexivity.
Defined.

(** ** What resolution yields *)

Lemma parse_pitch_histogram_length {N : Number} (h : string) (hist : list num) :
  parse_pitch_histogram h = Ok hist -> List.length hist = 12%nat.
Proof.
  intros H. apply parse_pitch_histogram_ok in H.
  destruct H as [(_ & ->)|(xs & _ & Hl & _ & ->)]; [reflexivity|].
  destruct (truthy (total xs)); [rewrite length_map; exact Hl | reflexivity].
Qed.

Lemma resolve_control_cases {N : Number} (w : World) (opt : Options) (r : Resolved) :
  resolve_control w opt = Ok r ->
  (control opt = None /\ r = unconditioned (max_len opt)) \/
  (exists arg, control opt = Some arg /\
     (isfile w arg || isdir w arg)%bool = true /\ resolve_path w opt arg = Ok r) \/
  (exists arg h d, control opt = Some arg /\
     isfile w arg = false /\ isdir w arg = false /\
     split ";" arg = [h; d] /\ resolve_inline w opt arg = Ok r).
Proof.
  unfold resolve_control. intros H.
  destruct (control opt) as [arg|].
  - right. destruct (isfile w arg || isdir w arg)%bool eqn:Hp.
    + left. exists arg. auto.
    + right. apply orb_false_iff in Hp. destruct Hp as (Hf & Hd).
      destruct (split ";" arg) as [|h [|d [|? ?]]] eqn:Hs;
        try (unfold resolve_inline in H; rewrite Hs in H; discriminate).
      exists arg, h, d. auto.
  - left. inversion H. auto.
Qed.

(** X12. Whatever the inline control string, a [Control] that comes out of
    resolution is well formed: its histogram has exactly 12 entries and its
    density is an index into the note-density bins.  Resolution describes
    its result as such a [Control] only for an argument that names no file
    or directory. *)
Theorem resolved_control_well_formed {N : Number} (w : World) (opt : Options)
    (r : Resolved) (c : Control) :
  resolve_control w opt = Ok r ->
  control_text r = Inline c ->
  List.length (pitch_histogram c) = 12%nat /\
  0 <= note_density c < Z.of_nat (List.length (note_density_bins w)) /\
  exists arg, control opt = Some arg /\ isfile w arg = false /\ isdir w arg = false.
Proof.
  intros Hr Ht.
  destruct (resolve_control_cases w opt r Hr)
    as [(_ & ->)|[(arg & _ & _ & Hp)|(arg & h & d & Hc & Hf & Hd & Hs & Hi)]].
  - discriminate.
  - apply resolve_path_ok in Hp. destruct Hp as (? & ? & ? & _ & _ & _ & _ & ->).
    discriminate.
  - apply (resolve_inline_ok w opt arg h d r Hs) in Hi.
    destruct Hi as (hist & dens & Hh & Hn & _ & ->).
    simpl in Ht. inversion Ht; subst c. simpl.
    split; [exact (parse_pitch_histogram_length h hist Hh)|].
    split; [apply (parse_note_density_ok w d dens); exact Hn|].
    exists arg. auto.
Qed.

Lemma resolved_control_well_formed_witness :
  resolve_control (N := Exact) sample_world (with_control ",,;11" 10)
    = Ok {| controls := Some [repeat (one_hot 12 11 ++ uniform)%list 8];
            resolved_max_len := 10;
            control_text := Inline {| pitch_histogram := uniform; note_density := 11 |} |} /\
  List.length (uniform (N := Exact)) = 12%nat.
Proof.
  split; [reflexivity|].
  exact (proj1 (resolved_control_well_formed (N := Exact) sample_world
                  (with_control ",,;11" 10) _
                  {| pitch_histogram := uniform; note_density := 11 |}
                  eq_refl eq_refl)).
Defined.

(** X13. Every control tensor that resolution builds, from a file or from an
    inline string, treats the batch uniformly: the batch size is not
    negative, each step holds exactly [batch_size] vectors, and the vectors
    of one step are all the same. *)
Theorem tensor_uniform_over_batch {N : Number} (w : World) (opt : Options)
    (r : Resolved) (t : tensor) :
  resolve_control w opt = Ok r ->
  controls r = Some t ->
  0 <= batch_size opt /\
  Forall (fun step =>
            List.length step = Z.to_nat (batch_size opt) /\
            forall u v, In u step -> In v step -> u = v) t.
Proof.
  intros Hr Ht.
  assert (Hrep : forall rows,
            Forall (fun step =>
                      List.length step = Z.to_nat (batch_size opt) /\
                      forall u v, In u step -> In v step -> u = v)
                   (map (fun v : list num => repeat v (Z.to_nat (batch_size opt))) rows)).
  { intros rows. apply Forall_forall. intros step Hin.
    apply in_map_iff in Hin. destruct Hin as (v0 & <- & _).
    split; [apply repeat_length|].
    intros u v Hu Hv. apply repeat_spec in Hu, Hv. congruence. }
  destruct (resolve_control_cases w opt r Hr)
    as [(_ & ->)|[(arg & _ & _ & Hp)|(arg & h & d & Hc & Hf & Hd & Hs & Hi)]].
  - discriminate.
  - apply resolve_path_ok in Hp. destruct Hp as (? & ? & rows & _ & _ & _ & Hb & ->).
    simpl in Ht. inversion Ht; subst t. split; [exact Hb | apply Hrep].
  - apply (resolve_inline_ok w opt arg h d r Hs) in Hi.
    destruct Hi as (hist & dens & _ & _ & Hb & ->).
    simpl in Ht. inversion Ht; subst t. split; [exact Hb|].
    exact (Hrep [map to_float32
                   (to_array w {| pitch_histogram := hist; note_density := dens |})]).
Qed.

Lemma tensor_uniform_over_batch_witness :
  resolve_control (N := Exact) sample_world (with_control "data/a.data" 0)
    = Ok {| controls := Some (map (fun v => repeat v 8) (sample_rows 3));
            resolved_max_len := 3;
            control_text := FromFile "data/a.data" |} /\
  0 <= batch_size (with_control (N := Exact) "data/a.data" 0).
Proof.
  split; [reflexivity|].
  exact (proj1 (tensor_uniform_over_batch (N := Exact) sample_world
                  (with_control "data/a.data" 0) _ _ eq_refl eq_refl)).
Defined.

(** ** The seed MIDI file and the order of the checks *)

(** X14. Under beam search the events of the seed MIDI file are never used:
    a run that reaches decoding with [beam_size > 0] prints the same settings
    and makes the same decode call as the run without [-i].  Under sampling
    the events read from the file are handed to the decode call: the events
    [preprocess_midi] returned when [-i] is given, none otherwise. *)
Theorem seed_events_only_for_sampling {N : Number} (w : World) (opt : Options) (rn : Run) :
  run w opt = Ok rn ->
  (0 < beam_size opt -> run w (without_midi opt) = Ok rn) /\
  (beam_size opt <= 0 ->
     exists init len ctl user_events greedy temp,
       call rn = generate init len ctl user_events greedy temp /\
       user_events = match input_midi_file opt with
                     | Some f => preprocess_midi w f
                     | None => None
                     end /\
       (input_midi_file opt <> None -> user_events <> None)).
Proof.
  intros H. apply run_ok in H.
  destruct H as (ue & r & dim & Hu & Hs & Hr & Hl & Hd & Hb & ->).
  split.
  - intros Hbeam. apply run_ok. exists None, r, dim.
    repeat split; auto.
    unfold finish. change (use_beam_search (without_midi opt)) with (use_beam_search opt).
    unfold use_beam_search. apply Z.ltb_lt in Hbeam. rewrite Hbeam. reflexivity.
  - intros Hbeam. unfold finish, use_beam_search.
    destruct (Z.ltb_spec 0 (beam_size opt)); [lia|]. simpl.
    do 6 eexists. split; [reflexivity|].
    unfold read_user_events in Hu.
    destruct (input_midi_file opt) as [f|].
    + destruct (isfile w f); simpl in Hu; [|discriminate].
      destruct (preprocess_midi w f) as [ev|]; simpl in Hu; [|discriminate].
      inversion Hu. split; [reflexivity | intros _; discriminate].
    + inversion Hu. split; [reflexivity | intros Hn; congruence].
Qed.

Lemma seed_events_only_for_sampling_witness :
  (input_midi_file (N := Exact) (with_seed "seed.mid" 3 10) = Some "seed.mid" /\
   isfile (N := Exact) seeded_world "seed.mid" = true /\
   preprocess_midi (N := Exact) seeded_world "seed.mid" = Some [60; 64; 67] /\
   run (N := Exact) seeded_world (with_seed "seed.mid" 3 10)
     = Ok (finish (with_seed "seed.mid" 3 10) (Some [60; 64; 67]) (unconditioned 10) 32) /\
   run (N := Exact) seeded_world (with_seed "seed.mid" 0 10)
     = Ok (finish (with_seed "seed.mid" 0 10) (Some [60; 64; 67]) (unconditioned 10) 32)) /\
  run (N := Exact) seeded_world (without_midi (with_seed "seed.mid" 3 10))
    = Ok (finish (with_seed "seed.mid" 3 10) (Some [60; 64; 67]) (unconditioned 10) 32) /\
  exists init len ctl user_events greedy temp,
    call (finish (N := Exact) (with_seed "seed.mid" 0 10) (Some [60; 64; 67])
            (unconditioned 10) 32)
      = generate init len ctl user_events greedy temp /\
    user_events = Some [60; 64; 67] /\
    (Some "seed.mid" <> None -> user_events <> None).
Proof.
  split; [repeat split|]. split.
  - exact (proj1 (seed_events_only_for_sampling (N := Exact) seeded_world
                    (with_seed "seed.mid" 3 10) _ eq_refl) eq_refl).
  - exact (proj2 (seed_events_only_for_sampling (N := Exact) seeded_world
                    (with_seed "seed.mid" 0 10) _ eq_refl) (Z.le_refl 0)).
Defined.

(** X15. The checks come in a fixed order, and the first one that fails
    decides the failure, whatever the later ones would say: the seed MIDI
    file (it must exist, then be readable), the session file, the control
    argument, the length, the model, and last the batch size of the initial
    state.  In particular a missing length is reported before the model is
    loaded, and a failure of resolution is passed on unchanged. *)
Theorem checks_in_order {N : Number} (w : World) (opt : Options) :
  (forall f, input_midi_file opt = Some f -> isfile w f = false ->
     run w opt = Err (NotAFile f)) /\
  (forall f, input_midi_file opt = Some f -> isfile w f = true ->
     preprocess_midi w f = None -> run w opt = Err (PreprocessError f)) /\
  (forall ue, read_user_events w opt = Ok ue ->
     (isfile w (sess_path opt) = false -> run w opt = Err (NotAFile (sess_path opt))) /\
     (isfile w (sess_path opt) = true ->
        (forall e, resolve_control w opt = Err e -> run w opt = Err e) /\
        (forall r, resolve_control w opt = Ok r ->
           (resolved_max_len r <= 0 -> run w opt = Err NoLength) /\
           (0 < resolved_max_len r ->
              (load_model w (sess_path opt) (stats_file opt) = None ->
                 run w opt = Err (SessionError (sess_path opt))) /\
              (forall dim, load_model w (sess_path opt) (stats_file opt) = Some dim ->
                 batch_size opt < 0 -> run w opt = Err NegativeDimension))))).
Proof.
  split; [|split].
  - intros f Hi Hf. unfold run, read_user_events. rewrite Hi, Hf. reflexivity.
  - intros f Hi Hf Hp. unfold run, read_user_events. rewrite Hi, Hf, Hp. reflexivity.
  - intros ue Hu. split.
    + intros Hs. unfold run. rewrite Hu, Hs. reflexivity.
    + intros Hs. split.
      * intros e Hr. unfold run. rewrite Hu, Hs; simpl. rewrite Hr. reflexivity.
      * intros r Hr. split.
        -- intros Hl. exact (run_stops_on_length w opt ue r Hu Hs Hr Hl).
        -- intros Hl. apply Z.ltb_lt in Hl. split.
           ++ intros Hd. unfold run. rewrite Hu, Hs; simpl. rewrite Hr; simpl.
              rewrite Hl; simpl. rewrite Hd. reflexivity.
           ++ intros dim Hd Hb. unfold run. rewrite Hu, Hs; simpl. rewrite Hr; simpl.
              rewrite Hl; simpl. rewrite Hd; simpl. unfold make_init.
              destruct (Z.leb_spec 0 (batch_size opt)); [lia | reflexivity].
Qed.

Lemma checks_in_order_witness :
  isfile (unreadable_world (N := Exact)) (sess_path (with_control "x" 0)) = true /\
  resolve_control (N := Exact) unreadable_world (with_control "x" 0) = Err UnpackError /\
  run (N := Exact) unreadable_world (with_control "x" 0) = Err UnpackError.
Proof.
  split; [reflexivity|]. split; [reflexivity|].
  exact (proj1 (proj2 (proj2 (proj2 (checks_in_order (N := Exact) unreadable_world
           (with_control "x" 0))) None eq_refl) eq_refl) UnpackError eq_refl).
Defined.
